(** * Local file store (src/lib/file-storage.ts): model and verified properties

    The module is a thin sequential wrapper around Node's [fs/promises] and
    [path] modules.  The development has four layers:

    - [Str]: the JavaScript string operations the module uses ([replace] with
      the sanitising regular expression, [toLowerCase], [split], [pop],
      template literals with a number);
    - [Path]: Node's [path.join] and [path.normalize], in their POSIX
      flavour (the store is meant for a volume mounted at [/app/storage]);
    - [Fs]: a directory tree with regular files and the six [fs] calls the
      module issues, with paths resolved component by component as the
      kernel does;
    - the eight exported functions, written with [await] and [try]/[catch]
      over the file-system state, under the names they have in the source.

    Modelling conventions.  File names and paths are strings of 8-bit
    characters read as the code units U+0000..U+00FF.  The file system is
    that of a Linux machine: a path component has at most 255 bytes and a
    path fewer than 4096, counted in UTF-8 as Node hands paths to the
    kernel, and Node refuses a path that holds a NUL character.  There are
    directories and regular files only (no links), the process may read and
    write everywhere and the device does not run out of space: within these
    limits a call fails exactly when the path or the shape of the tree makes
    it fail.  A failing call leaves the tree as it was, except [mkdir] with
    [recursive], which keeps the directories it made before it failed.  The
    [console] calls are observability only and are left out.  The value of [Date.now()], a
    number of milliseconds since the epoch, is an input of the two functions
    that read the clock. *)

From stdpp Require Import gmap strings list fin_maps.
From Stdlib Require Import Strings.Ascii Strings.Byte NArith DecimalString DecimalPos.
From Stdlib Require DecimalN.

#[local] Set Warnings "-register-all".
#[local] Arguments String.append !_ _ / : simpl nomatch.

(* ===================================================================== *)
(** ** JavaScript strings *)
(* ===================================================================== *)

Module Str.

(** Membership in the character class [a-zA-Z0-9.-]. *)
Definition in_class (c : ascii) : bool :=
  let n := N_of_ascii c in
  ((97 <=? n) && (n <=? 122) || (65 <=? n) && (n <=? 90)
   || (48 <=? n) && (n <=? 57) || (n =? 46) || (n =? 45))%N.

(** [s.replace(/[^a-zA-Z0-9.-]/g, "_")]: the pattern matches one code unit
    at a time and the flag [g] replaces every match. *)
Fixpoint replace_not_in_class (s : string) : string :=
  match s with
  | EmptyString => EmptyString
  | String c s' =>
      String (if in_class c then c else "_"%char) (replace_not_in_class s')
  end.

(** [String.prototype.toLowerCase] on one code unit below U+0100: the
    letters A-Z, and the Latin-1 capitals U+00C0..U+00DE except the
    multiplication sign U+00D7, move up by 32. *)
Definition lower_char (c : ascii) : ascii :=
  let n := N_of_ascii c in
  if ((65 <=? n) && (n <=? 90)
      || (192 <=? n) && (n <=? 222) && negb (n =? 215))%N
  then ascii_of_N (n + 32) else c.

Fixpoint toLowerCase (s : string) : string :=
  match s with
  | EmptyString => EmptyString
  | String c s' => String (lower_char c) (toLowerCase s')
  end.

(** [s.split(sep)] for a one-character separator: the pieces between the
    occurrences of [sep]; never the empty array. *)
Fixpoint split (sep : ascii) (s : string) : list string :=
  match s with
  | EmptyString => [EmptyString]
  | String c s' =>
      if decide (c = sep) then EmptyString :: split sep s'
      else match split sep s' with
           | piece :: pieces => String c piece :: pieces
           | [] => [String c EmptyString]
           end
  end.

(** [Array.prototype.pop]: the last element, [undefined] on the empty
    array. *)
Definition pop (l : list string) : option string := last l.

(** [`${n}`] for a non-negative integer below 1e21: its decimal digits. *)
Definition of_number (n : N) : string := NilEmpty.string_of_uint (N.to_uint n).

Definition is_digit (c : ascii) : bool :=
  let n := N_of_ascii c in ((48 <=? n) && (n <=? 57))%N.

(** Every character of [s] satisfies [p]. *)
Fixpoint all_chars (p : ascii → bool) (s : string) : bool :=
  match s with
  | EmptyString => true
  | String c s' => p c && all_chars p s'
  end.

Definition starts_with_slash (s : string) : bool :=
  match s with String "/" _ => true | _ => false end.

Fixpoint ends_with_slash (s : string) : bool :=
  match s with
  | EmptyString => false
  | String c EmptyString => bool_decide (c = "/"%char)
  | String _ s' => ends_with_slash s'
  end.

(** [pieces.join(sep)]. *)
Fixpoint join (sep : string) (pieces : list string) : string :=
  match pieces with
  | [] => EmptyString
  | [p] => p
  | p :: ps => p +:+ sep +:+ join sep ps
  end.

(** [s.startsWith(prefix)]. *)
Fixpoint starts_with (prefix s : string) : bool :=
  match prefix, s with
  | EmptyString, _ => true
  | String a prefix', String b s' =>
      bool_decide (a = b) && starts_with prefix' s'
  | String _ _, EmptyString => false
  end.

(** The character [c] does not occur in [s]. *)
Definition lacks (c : ascii) (s : string) : bool :=
  all_chars (λ x, negb (bool_decide (x = c))) s.

End Str.

(* ===================================================================== *)
(** ** Node's [path] module (POSIX flavour) *)
(* ===================================================================== *)

Module Path.

(** One step of [normalizeString]: the segments kept so far are a stack,
    last segment first.  Empty segments and [.] are dropped; [..] removes
    the last kept segment unless there is none or it is itself [..], in
    which case [..] is kept for a relative path and dropped for an absolute
    one. *)
Definition normalize_step (allowAboveRoot : bool)
    (kept : list string) (seg : string) : list string :=
  if decide (seg = "") then kept
  else if decide (seg = ".") then kept
  else if decide (seg = "..") then
    match kept with
    | top :: below =>
        if decide (top = "..")
        then (if allowAboveRoot then ".." :: kept else kept)
        else below
    | [] => if allowAboveRoot then [".."] else []
    end
  else seg :: kept.

Definition normalizeString (path : string) (allowAboveRoot : bool) : string :=
  Str.join "/" (reverse (fold_left (normalize_step allowAboveRoot)
                                   (Str.split "/" path) [])).

Definition normalize (path : string) : string :=
  if decide (path = "") then "."
  else
    let isAbsolute := Str.starts_with_slash path in
    let trailingSeparator := Str.ends_with_slash path in
    let body := normalizeString path (negb isAbsolute) in
    if decide (body = "") then
      if isAbsolute then "/" else if trailingSeparator then "./" else "."
    else
      (if isAbsolute then "/" else "") +:+ body
      +:+ (if trailingSeparator then "/" else "").

(** [path.join(a, b)]: the non-empty arguments joined by [/], normalised. *)
Definition join (a b : string) : string :=
  if decide (a = "") then
    if decide (b = "") then "." else normalize b
  else if decide (b = "") then normalize a
  else normalize (a +:+ "/" +:+ b).

(** A path component that names a directory entry. *)
Definition is_name (seg : string) : bool :=
  negb (bool_decide (seg = "")) && negb (bool_decide (seg = "."))
  && negb (bool_decide (seg = "..")) && Str.lacks "/" seg.

(** The segments [normalizeString] keeps for [path]. *)
Definition kept (path : string) : list string :=
  fold_left (normalize_step (negb (Str.starts_with_slash path)))
            (Str.split "/" path) [].

(** The shape of a stack of kept segments: names on top of a run of [..]
    that can only be there for a relative path. *)
Fixpoint normal (allowAboveRoot : bool) (stack : list string) : Prop :=
  match stack with
  | [] => True
  | seg :: below =>
      (is_name seg = true ∧ normal allowAboveRoot below)
      ∨ (seg = ".." ∧ allowAboveRoot = true ∧ Forall (λ s, s = "..") below)
  end.

(** A normalised path with at least one segment and no trailing slash. *)
Definition render (isAbsolute : bool) (segs : list string) : string :=
  (if isAbsolute then "/" else "") +:+ Str.join "/" segs.

End Path.

(* ===================================================================== *)
(** ** The file system behind Node's [fs/promises] *)
(* ===================================================================== *)

Module Fs.

(** A regular file holds bytes, a directory maps names to nodes. *)
Inductive node : Type :=
  | File (data : list byte)
  | Dir (entries : gmap string node).

(** The state seen by the process: the entries of the root directory and
    the working directory, as the list of names leading to it. *)
Record state : Type := State { root : gmap string node; cwd : list string }.

Definition tree (w : state) : node := Dir (root w).

Definition with_tree (w : state) (t : node) : state :=
  match t with
  | Dir m => State m (cwd w)
  | File _ => w
  end.

(** The node at the end of a list of names. *)
Fixpoint lookup (p : list string) (t : node) : option node :=
  match p with
  | [] => Some t
  | s :: p' =>
      match t with
      | Dir m => m !! s ≫= lookup p'
      | File _ => None
      end
  end.

(** Set ([Some]) or clear ([None]) the entry at the end of [p]; nothing
    happens when the directory that should hold it is missing. *)
Fixpoint update (p : list string) (v : option node) (t : node) : node :=
  match p, t with
  | s :: p', Dir m =>
      match p' with
      | [] => Dir (partial_alter (λ _, v) s m)
      | _ :: _ => Dir (alter (update p' v) s m)
      end
  | _, _ => t
  end.

Definition is_dir (o : option node) : bool :=
  match o with Some (Dir _) => true | _ => false end.

Definition is_file (o : option node) : bool :=
  match o with Some (File _) => true | _ => false end.

(** The limits of the kernel: a path component has at most [NAME_MAX]
    bytes, a path fewer than [PATH_MAX]. *)
Definition NAME_MAX : nat := 255.
Definition PATH_MAX : nat := 4096.

(** The number of bytes of a string in UTF-8, the encoding in which Node
    hands a path to the kernel: a code unit below U+0080 takes one byte,
    the others, up to U+00FF, take two. *)
Fixpoint utf8_length (s : string) : nat :=
  match s with
  | EmptyString => 0
  | String c s' => (if (N_of_ascii c <? 128)%N then 1 else 2) + utf8_length s'
  end.

(** A path component the kernel accepts: longer ones are refused with
    ENAMETOOLONG. *)
Definition name_fits (seg : string) : bool := utf8_length seg <=? NAME_MAX.

(** What is asked of a path before any component is followed: it is not
    empty (ENOENT), it holds no NUL character (Node's argument check) and it
    is shorter than [PATH_MAX] (ENAMETOOLONG). *)
Definition valid_path (path : string) : bool :=
  negb (bool_decide (path = "")) && Str.lacks "000" path
  && (utf8_length path <? PATH_MAX).

(** Where one path component leads from the directory [cur]. *)
Definition enter (cur : list string) (seg : string) : list string :=
  if decide (seg = ".") then cur
  else if decide (seg = "..") then removelast cur
  else cur ++ [seg].

(** Kernel path resolution: components are followed one at a time, and a
    component can only be followed when it fits and from an existing
    directory.  The result names the place the path denotes, whether or not
    something is there. *)
Fixpoint walk (t : node) (cur : list string) (segs : list string)
    : option (list string) :=
  match segs with
  | [] => Some cur
  | seg :: rest =>
      if decide (seg = "") then walk t cur rest
      else if name_fits seg then
        if is_dir (lookup cur t) then walk t (enter cur seg) rest
        else None
      else None
  end.

Definition resolve (w : state) (path : string) : option (list string) :=
  if valid_path path then
    walk (tree w) (if Str.starts_with_slash path then [] else cwd w)
         (Str.split "/" path)
  else None.

(** [fs.access(path)] with the default mode: the path leads to something.
    A trailing slash only fits a directory. *)
Definition access (w : state) (path : string) : option unit :=
  c ← resolve w path;
  match lookup c (tree w) with
  | Some (Dir _) => Some ()
  | Some (File _) => if Str.ends_with_slash path then None else Some ()
  | None => None
  end.

(** [fs.readFile(path)]: the whole content of a regular file. *)
Definition readFile (w : state) (path : string) : option (list byte) :=
  c ← resolve w path;
  match lookup c (tree w) with
  | Some (File data) => if Str.ends_with_slash path then None else Some data
  | _ => None
  end.

(** [fs.writeFile(path, data)]: create the file or replace its content;
    the path must resolve, so the name of the file must fit and the
    directory holding it must exist, and the target must not be a
    directory. *)
Definition writeFile (w : state) (path : string) (data : list byte)
    : option state :=
  c ← resolve w path;
  if Str.ends_with_slash path then None
  else match lookup c (tree w) with
       | Some (Dir _) => None
       | _ => Some (with_tree w (update c (Some (File data)) (tree w)))
       end.

(** [fs.unlink(path)]: remove a regular file. *)
Definition unlink (w : state) (path : string) : option state :=
  c ← resolve w path;
  match lookup c (tree w) with
  | Some (File _) =>
      if Str.ends_with_slash path then None
      else Some (with_tree w (update c None (tree w)))
  | _ => None
  end.

(** [fs.mkdir(path, { recursive: true })]: follow the path, creating the
    directories that are missing, one after the other; a component that
    does not fit, or a regular file on the way or at the end, is an error.
    The result says whether the call succeeded and gives the tree it left:
    the directories made before a failure stay. *)
Fixpoint mkdir_walk (t : node) (cur : list string) (segs : list string)
    : bool * node :=
  match segs with
  | [] => (is_dir (lookup cur t), t)
  | seg :: rest =>
      if decide (seg = "") then mkdir_walk t cur rest
      else if name_fits seg then
        if is_dir (lookup cur t) then
          let next := enter cur seg in
          match lookup next t with
          | None => mkdir_walk (update next (Some (Dir ∅)) t) next rest
          | Some _ => mkdir_walk t next rest
          end
        else (false, t)
      else (false, t)
  end.

Definition mkdir_recursive (w : state) (path : string) : bool * state :=
  if valid_path path then
    let (ok, t) :=
      mkdir_walk (tree w) (if Str.starts_with_slash path then [] else cwd w)
                 (Str.split "/" path) in
    (ok, with_tree w t)
  else (false, w).

(** [fs.rename(oldPath, newPath)].  The source must exist, and so must the
    directory that is to hold the new name.  Renaming something to itself
    succeeds and changes nothing.  A regular file replaces a regular file or
    fills a free name; a directory other than the root moves with everything
    below it to a free name or over an empty directory, never into itself,
    and the working directory follows when it lies below.  Both paths are
    resolved, so a new name that does not fit is an error.  A failing call
    changes nothing. *)
Definition rename (w : state) (oldPath newPath : string) : option state :=
  co ← resolve w oldPath;
  cn ← resolve w newPath;
  match lookup co (tree w) with
  | None => None
  | Some (File data) =>
      if Str.ends_with_slash oldPath || Str.ends_with_slash newPath then None
      else if decide (co = cn) then Some w
      else if is_dir (lookup cn (tree w)) then None
      else Some (with_tree w (update cn (Some (File data))
                                (update co None (tree w))))
  | Some (Dir m) =>
      let moved :=
        State (root (with_tree w (update cn (Some (Dir m))
                                    (update co None (tree w)))))
              (if decide (co `prefix_of` cwd w)
               then cn ++ drop (List.length co) (cwd w) else cwd w) in
      if decide (co = []) then None
      else if decide (cn = []) then None
      else if decide (co = cn) then Some w
      else if decide (co `prefix_of` cn) then None
      else match lookup cn (tree w) with
           | Some (File _) => None
           | Some (Dir m') => if decide (m' = ∅) then Some moved else None
           | None => Some moved
           end
  end.

(** Whether [path] leads to a directory. *)
Definition is_directory (w : state) (path : string) : bool :=
  match resolve w path with
  | Some c => is_dir (lookup c (tree w))
  | None => false
  end.

(** A place whose parent directory exists, so that an entry can be put
    there. *)
Definition anchored (t : node) (p : list string) : Prop :=
  p = [] ∨ is_dir (lookup (removelast p) t) = true.

(** [t'] has everything [t] has, of the same kind. *)
Definition extends (t t' : node) : Prop :=
  ∀ q, is_Some (lookup q t) →
       is_Some (lookup q t') ∧ is_dir (lookup q t') = is_dir (lookup q t).

End Fs.

(* ===================================================================== *)
(** ** Promises over the file system *)
(* ===================================================================== *)

(** What a [catch] clause can receive: an error raised by [fs] (the module
    never looks inside one) or an [Error] built by the module itself. *)
Inductive exn : Type :=
  | SystemError
  | Error (message : string).

(** How an awaited call ends. *)
Inductive outcome (A : Type) : Type :=
  | Returned (a : A)
  | Thrown (e : exn).
Arguments Returned {A} a.
Arguments Thrown {A} e.

(** An [async] function body: it runs on a file-system state and ends with an
    outcome and the state it leaves behind. *)
Definition promise (A : Type) : Type := Fs.state → outcome A * Fs.state.

Definition resolved {A} (a : A) : promise A := λ w, (Returned a, w).

Definition throw {A} (e : exn) : promise A := λ w, (Thrown e, w).

(** [const x = await m; k x] *)
Definition await {A B} (m : promise A) (k : A → promise B) : promise B :=
  λ w, match m w with
       | (Returned a, w') => k a w'
       | (Thrown e, w') => (Thrown e, w')
       end.

(** [try { m } catch (error) { handler error }] *)
Definition try_catch {A} (m : promise A) (handler : exn → promise A)
    : promise A :=
  λ w, match m w with
       | (Returned a, w') => (Returned a, w')
       | (Thrown e, w') => handler e w'
       end.

Notation "'let*' x := m 'in' k" := (await m (λ x, k))
  (at level 10, x name, m at level 100, k at level 200, only parsing).
Notation "'run' m 'then' k" := (await m (λ _, k))
  (at level 10, m at level 100, k at level 200, only parsing).

(** The [fs] calls as promises: a failing call rejects and, [mkdir] apart,
    leaves the state as it was. *)
Definition fs_query {A} (f : Fs.state → option A) : promise A :=
  λ w, match f w with
       | Some a => (Returned a, w)
       | None => (Thrown SystemError, w)
       end.

Definition fs_command (f : Fs.state → option Fs.state) : promise unit :=
  λ w, match f w with
       | Some w' => (Returned (), w')
       | None => (Thrown SystemError, w)
       end.

Definition fs_mkdir_recursive (path : string) : promise unit :=
  λ w, let (ok, w') := Fs.mkdir_recursive w path in
       (if ok then Returned () else Thrown SystemError, w').
Definition fs_writeFile (path : string) (data : list byte) : promise unit :=
  fs_command (λ w, Fs.writeFile w path data).
Definition fs_access (path : string) : promise unit :=
  fs_query (λ w, Fs.access w path).
Definition fs_readFile (path : string) : promise (list byte) :=
  fs_query (λ w, Fs.readFile w path).
Definition fs_unlink (path : string) : promise unit :=
  fs_command (λ w, Fs.unlink w path).
Definition fs_rename (oldPath newPath : string) : promise unit :=
  fs_command (λ w, Fs.rename w oldPath newPath).

(* ===================================================================== *)
(** ** src/lib/file-storage.ts *)
(* ===================================================================== *)

(** The five failures the module reports, under the names the specification
    gives them, with the messages the code gives them. *)
Definition StorageInitError : exn := Error "Storage initialization failed".
Definition UploadError : exn := Error "File upload failed".
Definition NotFoundError : exn := Error "File not found".
Definition ReadError : exn := Error "File read failed".
Definition RenameError : exn := Error "File rename failed".

Section FileStorage.

(** [process.env.STORAGE_PATH], unset when [None]. *)
Variable STORAGE_PATH : option string.

(** [process.env.STORAGE_PATH || "/app/storage"]: the empty string is
    falsy. *)
Definition STORAGE_BASE_PATH : string :=
  match STORAGE_PATH with
  | Some p => if decide (p = "") then "/app/storage" else p
  | None => "/app/storage"
  end.

Definition UPLOADS_FOLDER : string := Path.join STORAGE_BASE_PATH "uploads".

Definition initializeStorage : promise unit :=
  try_catch
    (fs_mkdir_recursive UPLOADS_FOLDER)
    (λ error, throw StorageInitError).

(** [now] is the value [Date.now()] returns during the call. *)
Definition uploadFile (buffer : list byte) (fileName : string) (now : N)
    : promise string :=
  try_catch
    (run initializeStorage then
     let timestamp := now in
     let sanitizedFileName := Str.replace_not_in_class fileName in
     let uniqueFileName :=
       Str.of_number timestamp +:+ "-" +:+ sanitizedFileName in
     let filePath := Path.join UPLOADS_FOLDER uniqueFileName in
     run fs_writeFile filePath buffer then
     let relativePath := "uploads/" +:+ uniqueFileName in
     resolved relativePath)
    (λ error, throw UploadError).

Definition getFilePath (relativePath : string) : promise string :=
  try_catch
    (let fullPath := Path.join STORAGE_BASE_PATH relativePath in
     run fs_access fullPath then
     resolved fullPath)
    (λ error, throw NotFoundError).

Definition readFile (relativePath : string) : promise (list byte) :=
  try_catch
    (let* fullPath := getFilePath relativePath in
     let* buffer := fs_readFile fullPath in
     resolved buffer)
    (λ error, throw ReadError).

Definition deleteFile (relativePath : string) : promise unit :=
  try_catch
    (let fullPath := Path.join STORAGE_BASE_PATH relativePath in
     run fs_unlink fullPath then
     resolved ())
    (λ error, resolved ()).

(** [now] is the value [Date.now()] returns during the call. *)
Definition renameFile (oldPath newFileName : string) (now : N)
    : promise string :=
  try_catch
    (let oldFullPath := Path.join STORAGE_BASE_PATH oldPath in
     let timestamp := now in
     let sanitizedFileName := Str.replace_not_in_class newFileName in
     let uniqueFileName :=
       Str.of_number timestamp +:+ "-" +:+ sanitizedFileName in
     let newRelativePath := "uploads/" +:+ uniqueFileName in
     let newFullPath := Path.join STORAGE_BASE_PATH newRelativePath in
     run fs_rename oldFullPath newFullPath then
     resolved newRelativePath)
    (λ error, throw RenameError).

Definition getContentType (fileName : string) : string :=
  let ext := Str.pop (Str.split "." (Str.toLowerCase fileName)) in
  if decide (ext = Some "pdf") then "application/pdf"
  else if decide (ext = Some "png") then "image/png"
  else if decide (ext = Some "jpg") then "image/jpeg"
  else if decide (ext = Some "jpeg") then "image/jpeg"
  else if decide (ext = Some "tiff") then "image/tiff"
  else if decide (ext = Some "tif") then "image/tiff"
  else "application/octet-stream".

Definition checkStorage : promise bool :=
  try_catch
    (run fs_access STORAGE_BASE_PATH then
     resolved true)
    (λ _,
       try_catch
         (run initializeStorage then
          resolved true)
         (λ error, resolved false)).

End FileStorage.

(* ===================================================================== *)
(** ** Vocabulary of the specification *)
(* ===================================================================== *)

(** The relative path of a stored file as the specification words it:
    [uploads/<timestamp>-<sanitized-name>]. *)
Definition stored_relative_path (timestamp : N) (fileName : string) : string :=
  "uploads/" +:+ Str.of_number timestamp +:+ "-"
  +:+ Str.replace_not_in_class fileName.

(** The characters of the class [a-zA-Z0-9.-]. *)
Definition allowed_character (c : ascii) : Prop :=
  (N_of_ascii "a" ≤ N_of_ascii c ≤ N_of_ascii "z")%N
  ∨ (N_of_ascii "A" ≤ N_of_ascii c ≤ N_of_ascii "Z")%N
  ∨ (N_of_ascii "0" ≤ N_of_ascii c ≤ N_of_ascii "9")%N
  ∨ c = "."%char ∨ c = "-"%char.

(** The table of the specification: an extension, already in lower case, to
    its MIME type. *)
Definition mime_of_extension (ext : string) : string :=
  if decide (ext = "pdf") then "application/pdf"
  else if decide (ext = "png") then "image/png"
  else if decide (ext = "jpg" ∨ ext = "jpeg") then "image/jpeg"
  else if decide (ext = "tiff" ∨ ext = "tif") then "image/tiff"
  else "application/octet-stream".

(** [fileName] ends in a dot followed by [ext], and [ext] has no dot. *)
Definition has_extension (fileName ext : string) : Prop :=
  ∃ stem, fileName = stem +:+ "." +:+ ext ∧ Str.lacks "." ext = true.

(** [fileName] has no extension at all: it has no dot. *)
Definition has_no_extension (fileName : string) : Prop :=
  Str.lacks "." fileName = true.

(** [full] is the directory [base] or lies below it. *)
Definition inside (base full : string) : bool :=
  bool_decide (full = base) || Str.starts_with (base +:+ "/") full.

(** *** States used in the scenarios *)

(** The bytes of [hello]. *)
Definition hello : list byte := [x68; x65; x6c; x6c; x6f].

(** A machine with an empty [/app] directory. *)
Definition fresh_machine : Fs.state := Fs.State {[ "app" := Fs.Dir ∅ ]} [].

(** A machine on which [/app] is a regular file. *)
Definition broken_machine : Fs.state := Fs.State {[ "app" := Fs.File [] ]} [].

(** A store that holds one upload, made at time 1700000000000 under the
    name [a]. *)
Definition one_upload : Fs.state :=
  Fs.State
    {[ "app" := Fs.Dir {[ "storage" := Fs.Dir {[ "uploads" := Fs.Dir
         {[ "1700000000000-a" := Fs.File hello ]} ]} ]} ]} [].

(** A store next to a file that does not belong to it. *)
Definition with_secret : Fs.state :=
  Fs.State
    {[ "app" := Fs.Dir {[ "storage" := Fs.Dir {[ "uploads" := Fs.Dir ∅ ]};
                          "secret.txt" := Fs.File hello ]} ]} [].

(** A store whose base directory holds a file but has no uploads folder. *)
Definition no_uploads_folder : Fs.state :=
  Fs.State {[ "app" := Fs.Dir {[ "storage" :=
                Fs.Dir {[ "old.txt" := Fs.File hello ]} ]} ]} [].

(** A machine on which the base path [/app/storage] is a regular file. *)
Definition base_is_a_file : Fs.state :=
  Fs.State {[ "app" := Fs.Dir {[ "storage" := Fs.File [] ]} ]} [].

(** A store in which a directory has the name the next upload would take
    (name [a] at time 5). *)
Definition directory_in_the_way : Fs.state :=
  Fs.State
    {[ "app" := Fs.Dir {[ "storage" := Fs.Dir {[ "uploads" := Fs.Dir
         {[ "5-a" := Fs.Dir ∅ ]} ]} ]} ]} [].

(** The letters [a] to [z]. *)
Definition is_lower_letter (c : ascii) : bool :=
  let n := N_of_ascii c in ((97 <=? n) && (n <=? 122))%N.

(** *** Long names *)

(** [n] times the letter [a]. *)
Fixpoint letters (n : nat) : string :=
  match n with
  | 0 => EmptyString
  | S n' => String "a" (letters n')
  end.

(** A file name of 242 letters: with a timestamp of thirteen digits and the
    dash, the stored name has 256 bytes, one more than a path component can
    have. *)
Definition long_name : string := letters 242.

(** A machine with an empty root directory. *)
Definition empty_machine : Fs.state := Fs.State ∅ [].

(* ===================================================================== *)
(** ** Facts about strings *)
(* ===================================================================== *)

Module StrFacts.
Import Str.

Lemma append_nil_r (s : string) : s +:+ "" = s.
Proof. induction s as [|c s IH]; simpl; [done | by rewrite IH]. Qed.

Lemma append_assoc (a b c : string) : (a +:+ b) +:+ c = a +:+ b +:+ c.
Proof. induction a as [|x a IH]; simpl; [done | by rewrite IH]. Qed.

Lemma append_length (a b : string) :
  String.length (a +:+ b) = String.length a + String.length b.
Proof. induction a as [|x a IH]; simpl; [done | by rewrite IH]. Qed.

Lemma all_chars_app p (a b : string) :
  all_chars p (a +:+ b) = all_chars p a && all_chars p b.
Proof.
  induction a as [|x a IH]; simpl; [done |].
  by rewrite IH, andb_assoc.
Qed.

Lemma all_chars_impl (p q : ascii → bool) (s : string) :
  (∀ c, p c = true → q c = true) → all_chars p s = true → all_chars q s = true.
Proof.
  intros Hpq. induction s as [|c s IH]; simpl; [done |].
  rewrite !andb_true_iff. intros [Hc Hs]. auto.
Qed.

(** *** The sanitising replacement *)

Lemma replace_length (s : string) :
  String.length (replace_not_in_class s) = String.length s.
Proof. induction s as [|c s IH]; simpl; [done | by rewrite IH]. Qed.


Lemma N_of_ascii_inj (c d : ascii) : N_of_ascii c = N_of_ascii d → c = d.
Proof.
  intros E. rewrite <- (ascii_N_embedding c), <- (ascii_N_embedding d).
  by rewrite E.
Qed.

Lemma in_class_allowed (c : ascii) :
  in_class c = true ↔ allowed_character c.
Proof.
  unfold in_class, allowed_character.
  rewrite !orb_true_iff, !andb_true_iff, !N.leb_le, !N.eqb_eq.
  change (N_of_ascii "a") with 97%N. change (N_of_ascii "z") with 122%N.
  change (N_of_ascii "A") with 65%N. change (N_of_ascii "Z") with 90%N.
  change (N_of_ascii "0") with 48%N. change (N_of_ascii "9") with 57%N.
  assert (N_of_ascii c = 46%N ↔ c = "."%char) as ->.
  { split; [apply (N_of_ascii_inj c ".") | by intros ->]. }
  assert (N_of_ascii c = 45%N ↔ c = "-"%char) as ->.
  { split; [apply (N_of_ascii_inj c "-") | by intros ->]. }
  tauto.
Qed.


Lemma in_class_not_slash (c : ascii) : in_class c = true → c ≠ "/"%char.
Proof. intros H ->. vm_compute in H. done. Qed.

Lemma replace_lacks_slash (s : string) :
  lacks "/" (replace_not_in_class s) = true.
Proof.
  unfold lacks. induction s as [|c s IH]; simpl; [done |].
  rewrite IH, andb_true_r. apply negb_true_iff, bool_decide_eq_false.
  destruct (in_class c) eqn:Hc; [by apply in_class_not_slash | done].
Qed.

(** *** Numbers in template literals *)

Lemma string_of_uint_digits (d : Decimal.uint) :
  all_chars is_digit (NilEmpty.string_of_uint d) = true.
Proof. induction d; simpl; done. Qed.

Lemma of_number_digits (n : N) : all_chars is_digit (of_number n) = true.
Proof. apply string_of_uint_digits. Qed.

Lemma of_number_nonempty (n : N) : of_number n ≠ "".
Proof.
  unfold of_number. destruct n as [|p]; [done |]. simpl.
  pose proof (DecimalPos.Unsigned.to_uint_nonnil p) as Hp.
  destruct (Pos.to_uint p); done.
Qed.

Lemma is_digit_not_slash (c : ascii) : is_digit c = true → c ≠ "/"%char.
Proof. intros H ->. vm_compute in H. done. Qed.

Lemma is_digit_not_dot (c : ascii) : is_digit c = true → c ≠ "."%char.
Proof. intros H ->. vm_compute in H. done. Qed.

Lemma of_number_lacks_slash (n : N) : lacks "/" (of_number n) = true.
Proof.
  eapply all_chars_impl; [| apply of_number_digits].
  intros c Hc. apply negb_true_iff, bool_decide_eq_false.
  by apply is_digit_not_slash.
Qed.

(** *** Splitting and joining *)

Lemma split_nonempty sep (s : string) : split sep s ≠ [].
Proof.
  destruct s as [|c s]; simpl; [done |].
  case_decide; [done |]. by destruct (split sep s).
Qed.

Lemma split_cons_sep sep (s : string) :
  split sep (String sep s) = "" :: split sep s.
Proof. simpl. by rewrite decide_True. Qed.

Lemma split_lacks sep (s : string) :
  lacks sep s = true → split sep s = [s].
Proof.
  unfold lacks. induction s as [|c s IH]; simpl; [done |].
  rewrite andb_true_iff, negb_true_iff, bool_decide_eq_false.
  intros [Hc Hs]. rewrite decide_False by done. by rewrite IH.
Qed.

Lemma split_app sep (a b : string) :
  split sep (a +:+ String sep b) = split sep a ++ split sep b.
Proof.
  induction a as [|c a IH]; simpl.
  - by rewrite decide_True.
  - case_decide; [by rewrite IH |].
    rewrite IH. pose proof (split_nonempty sep a).
    by destruct (split sep a).
Qed.

Lemma split_pieces_lack sep (s : string) :
  Forall (λ piece, lacks sep piece = true) (split sep s).
Proof.
  induction s as [|c s IH]; simpl; [by repeat constructor |].
  case_decide; [by constructor |].
  pose proof (split_nonempty sep s).
  destruct (split sep s) as [|piece pieces]; [done |].
  inversion_clear IH. constructor; [| done].
  unfold lacks in *. simpl. rewrite andb_true_iff, negb_true_iff.
  split; [by apply bool_decide_eq_false | done].
Qed.

Lemma split_join (pieces : list string) :
  pieces ≠ [] → Forall (λ piece, lacks "/" piece = true) pieces →
  split "/" (join "/" pieces) = pieces.
Proof.
  induction pieces as [|p ps IH]; [done |]. intros _ Hall.
  inversion_clear Hall as [|? ? Hp Hps].
  destruct ps as [|q ps]; [by apply split_lacks |].
  change (join "/" (p :: q :: ps)) with (p +:+ String "/" (join "/" (q :: ps))).
  rewrite split_app, split_lacks by done. simpl. f_equal. by apply IH.
Qed.

Lemma join_snoc (pieces : list string) (p : string) :
  pieces ≠ [] → join "/" (pieces ++ [p]) = join "/" pieces +:+ "/" +:+ p.
Proof.
  induction pieces as [|q qs IH]; [done |]. intros _.
  destruct qs as [|r rs]; [done |].
  change (join "/" ((q :: r :: rs) ++ [p]))
    with (q +:+ "/" +:+ join "/" ((r :: rs) ++ [p])).
  rewrite IH by done.
  change (join "/" (q :: r :: rs)) with (q +:+ "/" +:+ join "/" (r :: rs)).
  by rewrite !append_assoc.
Qed.

(** *** First and last characters *)

Lemma starts_with_slash_app (a b : string) :
  a ≠ "" → starts_with_slash (a +:+ b) = starts_with_slash a.
Proof. by destruct a. Qed.

Lemma ends_with_slash_app (a b : string) :
  b ≠ "" → ends_with_slash (a +:+ b) = ends_with_slash b.
Proof.
  intros Hb. induction a as [|c a IH]; [done |].
  simpl. rewrite IH. destruct (a +:+ b) eqn:E; [| done].
  destruct a; [done | discriminate].
Qed.

Lemma ends_with_slash_lacks (s : string) :
  lacks "/" s = true → ends_with_slash s = false.
Proof.
  unfold lacks. induction s as [|c s IH]; simpl; [done |].
  rewrite andb_true_iff, negb_true_iff. intros [Hc Hs].
  destruct s; [done | by apply IH].
Qed.

Lemma starts_with_slash_lacks (s : string) :
  lacks "/" s = true → starts_with_slash s = false.
Proof.
  unfold lacks. destruct s as [|c s]; simpl; [done |].
  rewrite andb_true_iff, negb_true_iff, bool_decide_eq_false.
  intros [Hc _]. destruct c as [[] [] [] [] [] [] [] []]; done.
Qed.

Lemma not_starts_with_slash (c : ascii) (s : string) :
  starts_with_slash (String c s) = false → c ≠ "/"%char.
Proof. by intros H ->. Qed.

Lemma split_relative (path : string) :
  path ≠ "" → starts_with_slash path = false →
  ∃ seg rest, split "/" path = seg :: rest ∧ seg ≠ "".
Proof.
  destruct path as [|c s]; [done |]. intros _ Hc.
  apply not_starts_with_slash in Hc. simpl.
  rewrite decide_False by done.
  destruct (split "/" s); eauto.
Qed.

End StrFacts.

(* ===================================================================== *)
(** ** Facts about [path.join] *)
(* ===================================================================== *)

Module PathFacts.
Import Str Path StrFacts.

Lemma is_name_spec (seg : string) :
  is_name seg = true ↔
  seg ≠ "" ∧ seg ≠ "." ∧ seg ≠ ".." ∧ lacks "/" seg = true.
Proof.
  unfold is_name.
  rewrite !andb_true_iff, !negb_true_iff, !bool_decide_eq_false. tauto.
Qed.

Lemma step_name allow (stack : list string) (seg : string) :
  is_name seg = true → normalize_step allow stack seg = seg :: stack.
Proof.
  rewrite is_name_spec. intros (? & ? & ? & _).
  unfold normalize_step. by rewrite !decide_False.
Qed.

Lemma fold_names allow (names stack : list string) :
  Forall (λ seg, is_name seg = true) names →
  fold_left (normalize_step allow) names stack = reverse names ++ stack.
Proof.
  intros Hall. revert stack.
  induction Hall as [|seg names Hseg _ IH]; intros stack; [done |].
  simpl. rewrite step_name, IH, reverse_cons by done.
  by rewrite <- app_assoc.
Qed.

Lemma normal_dots (stack : list string) :
  Forall (λ s, s = "..") stack → normal true stack.
Proof.
  induction 1 as [|seg below -> Hbelow IH]; simpl; [done |]. by right.
Qed.

Lemma normal_step allow (stack : list string) (seg : string) :
  lacks "/" seg = true → normal allow stack →
  normal allow (normalize_step allow stack seg).
Proof.
  intros Hseg Hstack. unfold normalize_step.
  repeat case_decide; subst; try done.
  - destruct stack as [|top below]; [by destruct allow; simpl; auto |].
    case_decide as Htop.
    + subst top. destruct allow; [| done].
      destruct Hstack as [[Hn _] | (_ & _ & Hbelow)]; [done |].
      right. by repeat constructor.
    + destruct Hstack as [[_ Hbelow] | (? & _)]; done.
  - left. split; [| done]. by apply is_name_spec.
Qed.

Lemma normal_fold allow (segs stack : list string) :
  Forall (λ seg, lacks "/" seg = true) segs → normal allow stack →
  normal allow (fold_left (normalize_step allow) segs stack).
Proof.
  intros Hall. revert stack.
  induction Hall as [|seg segs Hseg _ IH]; intros stack Hstack; [done |].
  simpl. by apply IH, normal_step.
Qed.

Lemma normal_kept (path : string) :
  normal (negb (starts_with_slash path)) (kept path).
Proof. apply normal_fold; [apply split_pieces_lack | done]. Qed.

Lemma normal_pieces allow (stack : list string) :
  normal allow stack →
  Forall (λ seg, seg ≠ "" ∧ lacks "/" seg = true) stack.
Proof.
  induction stack as [|seg below IH]; [done |].
  intros [[Hn Hbelow] | (-> & -> & Hbelow)].
  - constructor; [| by apply IH]. apply is_name_spec in Hn. tauto.
  - constructor; [done |]. by apply IH, normal_dots.
Qed.

(** Normalising a normalised stack again gives it back. *)
Lemma fold_reverse_normal allow (stack : list string) :
  normal allow stack →
  fold_left (normalize_step allow) (reverse stack) [] = stack.
Proof.
  induction stack as [|seg below IH]; [done |].
  intros Hstack. rewrite reverse_cons, fold_left_app. simpl.
  destruct Hstack as [[Hn Hbelow] | (-> & -> & Hbelow)].
  - by rewrite IH, step_name.
  - rewrite IH by by apply normal_dots.
    destruct Hbelow as [|top below -> _]; [done |].
    unfold normalize_step. simpl. done.
Qed.

Lemma join_nonempty (pieces : list string) :
  pieces ≠ [] → Forall (λ seg, seg ≠ "" ∧ lacks "/" seg = true) pieces →
  Str.join "/" pieces ≠ "".
Proof.
  intros Hne Hall. destruct Hall as [|p ps [Hp _] _]; [done |].
  destruct ps; simpl; [done |]. by destruct p.
Qed.

Lemma join_no_trailing_slash (pieces : list string) :
  pieces ≠ [] → Forall (λ seg, seg ≠ "" ∧ lacks "/" seg = true) pieces →
  ends_with_slash (Str.join "/" pieces) = false.
Proof.
  induction pieces as [|p ps IH]; [done |]. intros _ Hall.
  inversion_clear Hall as [|? ? [Hp Hlack] Hps].
  destruct ps as [|q ps]; [by apply ends_with_slash_lacks |].
  change (Str.join "/" (p :: q :: ps))
    with (p +:+ "/" +:+ Str.join "/" (q :: ps)).
  rewrite ends_with_slash_app.
  - rewrite ends_with_slash_app; [by apply IH | by apply join_nonempty].
  - done.
Qed.

Lemma render_nonempty abs (segs : list string) :
  segs ≠ [] → Forall (λ seg, seg ≠ "" ∧ lacks "/" seg = true) segs →
  render abs segs ≠ "".
Proof.
  intros Hne Hall. unfold render. destruct abs; [done |].
  by apply join_nonempty.
Qed.

Lemma render_no_trailing_slash abs (segs : list string) :
  segs ≠ [] → Forall (λ seg, seg ≠ "" ∧ lacks "/" seg = true) segs →
  ends_with_slash (render abs segs) = false.
Proof.
  intros Hne Hall. unfold render.
  pose proof (join_nonempty _ Hne Hall).
  destruct abs.
  - rewrite (ends_with_slash_app "/") by done.
    by apply join_no_trailing_slash.
  - simpl String.append. by apply join_no_trailing_slash.
Qed.

Lemma render_starts_with_slash abs (segs : list string) :
  segs ≠ [] → Forall (λ seg, seg ≠ "" ∧ lacks "/" seg = true) segs →
  starts_with_slash (render abs segs) = abs.
Proof.
  intros Hne Hall. unfold render. destruct abs; [done |].
  simpl String.append. destruct Hall as [|p ps [Hp Hlack] _]; [done |].
  destruct ps as [|q ps]; [by apply starts_with_slash_lacks |].
  change (Str.join "/" (p :: q :: ps))
    with (p +:+ "/" +:+ Str.join "/" (q :: ps)).
  rewrite starts_with_slash_app by done. by apply starts_with_slash_lacks.
Qed.

Lemma split_render abs (segs : list string) :
  segs ≠ [] → Forall (λ seg, seg ≠ "" ∧ lacks "/" seg = true) segs →
  split "/" (render abs segs) = (if abs then [""] else []) ++ segs.
Proof.
  intros Hne Hall. unfold render.
  assert (split "/" (Str.join "/" segs) = segs) as Hsplit.
  { apply split_join; [done |]. eapply Forall_impl; [done |]. by intros ? []. }
  destruct abs; simpl String.append; [| done].
  by rewrite split_cons_sep, Hsplit.
Qed.

Lemma kept_render abs (stack : list string) :
  stack ≠ [] → normal (negb abs) stack →
  kept (render abs (reverse stack)) = stack.
Proof.
  intros Hne Hstack.
  assert (reverse stack ≠ []) as Hrev.
  { intros E. apply Hne. by rewrite <- (reverse_involutive stack), E. }
  assert (Forall (λ seg, seg ≠ "" ∧ lacks "/" seg = true) (reverse stack))
    as Hall by (apply Forall_reverse; by eapply normal_pieces).
  unfold kept. rewrite render_starts_with_slash, split_render by done.
  destruct abs; simpl; by apply fold_reverse_normal.
Qed.

Lemma normalize_render (path : string) :
  path ≠ "" → ends_with_slash path = false → kept path ≠ [] →
  normalize path
  = render (starts_with_slash path) (reverse (kept path)).
Proof.
  intros Hne Hend Hkept. unfold normalize, normalizeString.
  rewrite decide_False by done. fold (kept path).
  rewrite Hend, decide_False.
  - unfold render. by rewrite append_nil_r.
  - apply join_nonempty.
    + intros E. apply Hkept. by rewrite <- (reverse_involutive (kept path)), E.
    + apply Forall_reverse. eapply normal_pieces, normal_kept.
Qed.

Lemma kept_app (a b : string) :
  a ≠ "" →
  kept (a +:+ "/" +:+ b)
  = fold_left (normalize_step (negb (starts_with_slash a)))
              (split "/" b) (kept a).
Proof.
  intros Ha. unfold kept.
  rewrite starts_with_slash_app by done.
  change (a +:+ "/" +:+ b) with (a +:+ String "/" b).
  by rewrite split_app, fold_left_app.
Qed.

Lemma names_pieces (names : list string) :
  Forall (λ seg, is_name seg = true) names →
  Forall (λ seg, seg ≠ "" ∧ lacks "/" seg = true) names.
Proof.
  intros Hall. eapply Forall_impl; [done |].
  intros seg Hn. apply is_name_spec in Hn. tauto.
Qed.

(** Joining names onto a base keeps the segments of the base and adds the
    names. *)
Lemma join_names (base : string) (names : list string) :
  base ≠ "" → names ≠ [] → Forall (λ seg, is_name seg = true) names →
  Path.join base (Str.join "/" names)
  = render (starts_with_slash base) (reverse (kept base) ++ names).
Proof.
  intros Hbase Hne Hnames.
  pose proof (names_pieces _ Hnames) as Hpieces.
  pose proof (join_nonempty _ Hne Hpieces) as Hrel.
  unfold Path.join. rewrite !decide_False by done.
  assert (kept (base +:+ "/" +:+ Str.join "/" names)
          = reverse names ++ kept base) as Hkept.
  { rewrite kept_app by done. rewrite split_join.
    - by apply fold_names.
    - done.
    - eapply Forall_impl; [done |]. by intros ? []. }
  rewrite normalize_render.
  - rewrite Hkept, starts_with_slash_app by done.
    by rewrite reverse_app, reverse_involutive.
  - by destruct base.
  - rewrite ends_with_slash_app by done.
    rewrite ends_with_slash_app by done.
    by apply join_no_trailing_slash.
  - rewrite Hkept. destruct names; [done |].
    rewrite reverse_cons. by destruct (reverse names).
Qed.

Lemma join_name (base name : string) :
  base ≠ "" → is_name name = true →
  Path.join base name
  = render (starts_with_slash base) (reverse (kept base) ++ [name]).
Proof.
  intros Hbase Hname.
  apply (join_names base [name]); [done | done | by repeat constructor].
Qed.

(** The path [uploadFile] writes to is the path [getFilePath] resolves the
    returned relative path to. *)
Lemma join_join_name (base dir name : string) :
  base ≠ "" → is_name dir = true → is_name name = true →
  Path.join (Path.join base dir) name
  = Path.join base (dir +:+ "/" +:+ name).
Proof.
  intros Hbase Hdir Hname.
  change (dir +:+ "/" +:+ name) with (Str.join "/" [dir; name]).
  rewrite (join_names base [dir; name]) by (by repeat constructor).
  rewrite (join_name base dir) by done.
  set (abs := starts_with_slash base).
  assert (normal (negb abs) (dir :: kept base)) as Hnormal.
  { left. split; [done | apply normal_kept]. }
  pose proof (normal_pieces _ _ Hnormal) as Hpieces.
  replace (reverse (kept base) ++ [dir]) with (reverse (dir :: kept base))
    by by rewrite reverse_cons.
  rewrite join_name; [| by apply render_nonempty;
    [rewrite reverse_cons; by destruct (reverse (kept base))
    | apply Forall_reverse] | done].
  rewrite render_starts_with_slash;
    [| rewrite reverse_cons; by destruct (reverse (kept base))
     | by apply Forall_reverse].
  rewrite kept_render by done.
  by rewrite reverse_cons, <- app_assoc.
Qed.

End PathFacts.

(* ===================================================================== *)
(** ** Facts about the file system *)
(* ===================================================================== *)

Module FsFacts.
Import Fs.

(** *** The directory tree *)

Lemma update_single s v m :
  update [s] v (Dir m) = Dir (partial_alter (λ _, v) s m).
Proof. done. Qed.

Lemma update_cons s p v m :
  p ≠ [] → update (s :: p) v (Dir m) = Dir (alter (update p v) s m).
Proof. by destruct p. Qed.

Lemma update_dir p v m : ∃ m', update p v (Dir m) = Dir m'.
Proof. destruct p as [|s [|s' r]]; simpl; eauto. Qed.

Lemma tree_with_update w p v :
  tree (with_tree w (update p v (tree w))) = update p v (tree w).
Proof. unfold tree. by destruct (update_dir p v (root w)) as [m' ->]. Qed.

Lemma cwd_with_tree w t : cwd (with_tree w t) = cwd w.
Proof. by destruct t. Qed.

Lemma with_tree_same w : with_tree w (tree w) = w.
Proof. by destruct w. Qed.

Lemma lookup_app p q t : lookup (p ++ q) t = lookup p t ≫= lookup q.
Proof.
  revert t. induction p as [|s p IH]; intros t; simpl; [done |].
  destruct t as [d | m]; [done |]. destruct (m !! s); simpl; auto.
Qed.

Lemma lookup_below_file q d : q ≠ [] → lookup q (File d) = None.
Proof. by destruct q. Qed.

Lemma lookup_prefix_dir p r t :
  r ≠ [] → is_Some (lookup (p ++ r) t) → is_dir (lookup p t) = true.
Proof.
  intros Hr. rewrite lookup_app.
  destruct (lookup p t) as [[d | m] |]; simpl; [| done |].
  - rewrite lookup_below_file by done. by intros [? ?].
  - by intros [? ?].
Qed.

Lemma lookup_parent_dir p t :
  p ≠ [] → is_Some (lookup p t) → is_dir (lookup (removelast p) t) = true.
Proof.
  intros Hp. destruct (exists_last Hp) as (q & s & ->).
  rewrite removelast_last. by apply lookup_prefix_dir.
Qed.

Lemma is_dir_anchored p t : is_dir (lookup p t) = true → anchored t p.
Proof.
  intros Hd. destruct (decide (p = [])) as [-> | Hp]; [by left | right].
  apply lookup_parent_dir; [done |]. by destruct (lookup p t).
Qed.

Lemma lookup_update_snoc q s v t :
  is_dir (lookup q t) = true →
  lookup (q ++ [s]) (update (q ++ [s]) v t) = v.
Proof.
  revert t. induction q as [|a q IH]; intros t Hq.
  - destruct t as [d | m]; [done |]. simpl.
    rewrite lookup_partial_alter_eq. by destruct v.
  - destruct t as [d | m]; [done |]. simpl in Hq.
    change ((a :: q) ++ [s]) with (a :: (q ++ [s])).
    rewrite update_cons by (by destruct q). simpl.
    rewrite lookup_alter_eq. destruct (m !! a) as [c |]; [| done].
    simpl in *. by apply IH.
Qed.

Lemma lookup_update_eq p v t :
  p ≠ [] → anchored t p → lookup p (update p v t) = v.
Proof.
  intros Hp [-> | Hd]; [done |].
  destruct (exists_last Hp) as (q & s & ->).
  rewrite removelast_last in Hd. by apply lookup_update_snoc.
Qed.

(** Putting or removing a regular file where no directory is leaves every
    directory a directory and creates none. *)
Lemma is_dir_update_file p v t q :
  is_dir v = false → is_dir (lookup p t) = false →
  is_dir (lookup q (update p v t)) = is_dir (lookup q t).
Proof.
  intros Hv. revert t q.
  induction p as [|s p IH]; intros t q Hp; [done |].
  destruct t as [d | m]; [done |].
  destruct q as [|s2 q].
  { by destruct (update_dir (s :: p) v m) as [m' ->]. }
  destruct (decide (p = [])) as [-> | Hne].
  - simpl in *. rewrite lookup_partial_alter.
    case_decide; [subst s2 | done].
    destruct (m !! s) as [[? | ?] |], v as [[? | ?] |], q; done.
  - rewrite update_cons by done. simpl in *. rewrite lookup_alter.
    case_decide; [subst s2 | done].
    destruct (m !! s) as [c |]; simpl in *; [| done]. by apply IH.
Qed.

(** Such an update makes nothing appear anywhere else. *)
Lemma lookup_update_None p v t q :
  is_dir v = false → q ≠ p → lookup q t = None →
  lookup q (update p v t) = None.
Proof.
  intros Hv. revert t q.
  induction p as [|s p IH]; intros t q Hqp Hq; [done |].
  destruct t as [d | m]; [done |].
  destruct q as [|s2 q]; [done |].
  destruct (decide (p = [])) as [-> | Hne].
  - simpl in *. rewrite lookup_partial_alter.
    case_decide; [subst s2 | done].
    destruct v as [[? | ?] |], q; done.
  - rewrite update_cons by done. simpl in *. rewrite lookup_alter.
    case_decide; [subst s2 | done].
    destruct (m !! s) as [c |]; simpl in *; [| done].
    apply IH; [congruence | done].
Qed.

(** A new entry at a free place leaves what was there in place. *)
Lemma extends_update_fresh p x t :
  lookup p t = None → extends t (update p (Some x) t).
Proof.
  revert t. induction p as [|s p IH]; intros t Hp q Hq; [done |].
  destruct t as [d | m]; [done |].
  destruct q as [|s2 q].
  { by destruct (update_dir (s :: p) (Some x) m) as [m' ->]. }
  destruct (decide (p = [])) as [-> | Hne].
  - simpl in *. rewrite lookup_partial_alter.
    case_decide; [subst s2 | done].
    destruct (m !! s); [done |]. by destruct Hq.
  - rewrite update_cons by done. simpl in *. rewrite lookup_alter.
    case_decide; [subst s2 | done].
    destruct (m !! s) as [c |]; simpl in *; [| by destruct Hq].
    by apply IH.
Qed.

Lemma extends_refl t : extends t t.
Proof. by intros q Hq. Qed.

Lemma extends_trans t1 t2 t3 : extends t1 t2 → extends t2 t3 → extends t1 t3.
Proof.
  intros H12 H23 q Hq. destruct (H12 q Hq) as [Hq2 E2].
  destruct (H23 q Hq2) as [Hq3 E3]. split; [done | congruence].
Qed.

Lemma extends_is_dir t t' q :
  extends t t' → is_dir (lookup q t) = true → is_dir (lookup q t') = true.
Proof.
  intros Hext Hd. destruct (Hext q) as [_ E]; [| congruence].
  by destruct (lookup q t).
Qed.

Lemma update_keeps_dir p v t :
  is_dir (Some (update p v t)) = is_dir (Some t).
Proof.
  destruct t as [d | m]; [by destruct p |].
  by destruct (update_dir p v m) as [m' ->].
Qed.

Lemma tree_with_tree w t : is_dir (Some t) = true → tree (with_tree w t) = t.
Proof. by destruct t. Qed.

(** *** Path resolution *)

Lemma utf8_length_app (a b : string) :
  utf8_length (a +:+ b) = utf8_length a + utf8_length b.
Proof. induction a as [|c a IH]; simpl; [done | rewrite IH; lia]. Qed.

Lemma valid_path_inv path :
  valid_path path = true →
  path ≠ "" ∧ Str.lacks "000" path = true ∧ utf8_length path < PATH_MAX.
Proof.
  unfold valid_path. rewrite !andb_true_iff, negb_true_iff.
  rewrite bool_decide_eq_false, Nat.ltb_lt. tauto.
Qed.

Lemma valid_path_intro path :
  path ≠ "" → Str.lacks "000" path = true → utf8_length path < PATH_MAX →
  valid_path path = true.
Proof.
  intros Hne Hnul Hlen. unfold valid_path.
  rewrite !andb_true_iff, negb_true_iff, bool_decide_eq_false, Nat.ltb_lt.
  tauto.
Qed.

Lemma name_fits_dots : name_fits "." = true ∧ name_fits ".." = true.
Proof. by vm_compute. Qed.

Lemma name_fits_spec seg : name_fits seg = true ↔ utf8_length seg ≤ NAME_MAX.
Proof. apply Nat.leb_le. Qed.


Lemma entry_path_valid_inv (folder name : string) :
  folder ≠ "" → valid_path (folder +:+ "/" +:+ name) = true →
  valid_path folder = true.
Proof.
  intros Hne (_ & Hnul & Hlen)%valid_path_inv.
  apply valid_path_intro; [done | |].
  - unfold Str.lacks in *. rewrite StrFacts.all_chars_app in Hnul.
    by apply andb_true_iff in Hnul as [? _].
  - rewrite utf8_length_app in Hlen. lia.
Qed.

Lemma enter_anchored t cur seg :
  is_dir (lookup cur t) = true → anchored t (enter cur seg).
Proof.
  intros Hd. unfold enter. repeat case_decide.
  - by apply is_dir_anchored.
  - destruct (decide (cur = [])) as [-> | Hne]; [by left |].
    apply is_dir_anchored, lookup_parent_dir; [done |].
    by destruct (lookup cur t).
  - right. by rewrite removelast_last.
Qed.

Lemma walk_anchored t cur segs c :
  walk t cur segs = Some c → anchored t cur → anchored t c.
Proof.
  revert cur. induction segs as [|seg rest IH]; intros cur; simpl.
  - by intros [= ->].
  - case_decide; [by apply IH |].
    destruct (name_fits seg); [| done].
    destruct (is_dir (lookup cur t)) eqn:Hd; [| done].
    intros Hw _. eapply IH; [done |]. by apply enter_anchored.
Qed.

Lemma walk_ext t t' cur segs :
  (∀ q, is_dir (lookup q t') = is_dir (lookup q t)) →
  walk t' cur segs = walk t cur segs.
Proof.
  intros Hsame. revert cur.
  induction segs as [|seg rest IH]; intros cur; simpl; [done |].
  rewrite Hsame. case_decide; [done |].
  destruct (name_fits seg); [| done]. by destruct (is_dir _).
Qed.

Lemma walk_app t cur segs1 segs2 :
  walk t cur (segs1 ++ segs2) = walk t cur segs1 ≫= λ c, walk t c segs2.
Proof.
  revert cur. induction segs1 as [|seg rest IH]; intros cur; simpl; [done |].
  case_decide; [done |].
  destruct (name_fits seg); [| done]. by destruct (is_dir _).
Qed.

Lemma resolve_anchored w path c :
  resolve w path = Some c → anchored (tree w) c.
Proof.
  unfold resolve. destruct (valid_path path) eqn:Hvalid; [| done].
  apply valid_path_inv in Hvalid as (Hne & _ & _).
  destruct (Str.starts_with_slash path) eqn:Habs.
  - intros Hw. eapply walk_anchored; [done | by left].
  - destruct (StrFacts.split_relative path Hne Habs)
      as (seg & rest & -> & Hseg).
    simpl. rewrite decide_False by done.
    destruct (name_fits seg); [| done].
    destruct (is_dir (lookup (cwd w) (tree w))) eqn:Hd; [| done].
    intros Hw. eapply walk_anchored; [done |]. by apply enter_anchored.
Qed.

Lemma resolve_ext w w' path :
  cwd w' = cwd w →
  (∀ q, is_dir (lookup q (tree w')) = is_dir (lookup q (tree w))) →
  resolve w' path = resolve w path.
Proof.
  intros Hcwd Hsame. unfold resolve. rewrite Hcwd.
  destruct (valid_path path); [| done]. by apply walk_ext.
Qed.

(** *** [writeFile], [readFile], [access], [unlink] *)

Lemma writeFile_inv w path data w' :
  writeFile w path data = Some w' →
  ∃ c, resolve w path = Some c ∧ Str.ends_with_slash path = false
       ∧ is_dir (lookup c (tree w)) = false
       ∧ w' = with_tree w (update c (Some (File data)) (tree w)).
Proof.
  unfold writeFile. destruct (resolve w path) as [c |]; simpl; [| done].
  destruct (Str.ends_with_slash path); [done |].
  destruct (lookup c (tree w)) as [[d | m] |] eqn:Hc; [| done |];
    intros [= <-]; exists c; by rewrite Hc.
Qed.

Lemma not_dir_nonempty t c :
  is_dir (Some t) = true → is_dir (lookup c t) = false → c ≠ [].
Proof. intros Ht Hc ->. simpl lookup in Hc. congruence. Qed.

(** What was written can be found and read back. *)
Lemma writeFile_readFile w path data w' :
  writeFile w path data = Some w' →
  access w' path = Some () ∧ readFile w' path = Some data.
Proof.
  intros (c & Hres & Hslash & Hnd & ->)%writeFile_inv.
  assert (resolve (with_tree w (update c (Some (File data)) (tree w))) path
          = Some c) as Hres'.
  { rewrite <- Hres. apply resolve_ext; [apply cwd_with_tree |].
    intros q. rewrite tree_with_update. by apply is_dir_update_file. }
  unfold access, readFile. rewrite Hres'. simpl.
  rewrite tree_with_update, lookup_update_eq, Hslash; [done | |].
  - by apply (not_dir_nonempty (tree w)).
  - by eapply resolve_anchored.
Qed.

Lemma readFile_access w path data :
  readFile w path = Some data → access w path = Some ().
Proof.
  unfold readFile, access. destruct (resolve w path) as [c |]; [| done].
  simpl. destruct (lookup c (tree w)) as [[d | m] |]; [| done | done].
  by destruct (Str.ends_with_slash path).
Qed.

Lemma unlink_inv w path w' :
  unlink w path = Some w' →
  ∃ c data, resolve w path = Some c ∧ Str.ends_with_slash path = false
       ∧ lookup c (tree w) = Some (File data)
       ∧ w' = with_tree w (update c None (tree w)).
Proof.
  unfold unlink. destruct (resolve w path) as [c |]; simpl; [| done].
  destruct (lookup c (tree w)) as [[d | m] |] eqn:Hc; [| done | done].
  destruct (Str.ends_with_slash path); [done |].
  intros [= <-]. by exists c, d.
Qed.

(** [unlink] succeeds exactly on the paths [readFile] succeeds on. *)
Lemma unlink_is_Some w path :
  is_Some (unlink w path) ↔ is_Some (readFile w path).
Proof.
  unfold unlink, readFile.
  destruct (resolve w path) as [c |]; simpl;
    [| by split; intros [? ?]].
  destruct (lookup c (tree w)) as [[d | m] |];
    try (by split; intros [? ?]).
  destruct (Str.ends_with_slash path); [by split; intros [? ?] |].
  split; intros _; eauto.
Qed.

(** What was unlinked is gone. *)
Lemma unlink_access w path w' :
  unlink w path = Some w' → access w' path = None.
Proof.
  intros (c & data & Hres & Hslash & Hc & ->)%unlink_inv.
  assert (is_dir (lookup c (tree w)) = false) as Hnd by by rewrite Hc.
  assert (resolve (with_tree w (update c None (tree w))) path = Some c)
    as Hres'.
  { rewrite <- Hres. apply resolve_ext; [apply cwd_with_tree |].
    intros q. rewrite tree_with_update. by apply is_dir_update_file. }
  unfold access. rewrite Hres'. simpl.
  rewrite tree_with_update, lookup_update_eq; [done | |].
  - by apply (not_dir_nonempty (tree w)).
  - by eapply resolve_anchored.
Qed.

(** *** [rename] *)

Lemma rename_missing w old new : access w old = None → rename w old new = None.
Proof.
  unfold access, rename. destruct (resolve w old) as [co |]; simpl; [| done].
  destruct (resolve w new) as [cn |]; simpl; [| done].
  destruct (lookup co (tree w)) as [[d | m] |]; [| done | done].
  by destruct (Str.ends_with_slash old).
Qed.

Lemma rename_file_inv w old new w' co data :
  resolve w old = Some co → lookup co (tree w) = Some (File data) →
  rename w old new = Some w' →
  ∃ cn, resolve w new = Some cn
        ∧ Str.ends_with_slash old = false ∧ Str.ends_with_slash new = false
        ∧ (co = cn ∧ w' = w
           ∨ co ≠ cn ∧ is_dir (lookup cn (tree w)) = false
             ∧ w' = with_tree w (update cn (Some (File data))
                                   (update co None (tree w)))).
Proof.
  intros Hco Hsrc. unfold rename. rewrite Hco. simpl.
  destruct (resolve w new) as [cn |]; simpl; [| done]. rewrite Hsrc.
  destruct (Str.ends_with_slash old), (Str.ends_with_slash new); try done.
  simpl. case_decide as Heq.
  - intros [= <-]. exists cn. repeat split; auto.
  - destruct (is_dir (lookup cn (tree w))) eqn:Hd; [done |].
    intros [= <-]. exists cn. repeat split; auto.
Qed.

(** After a regular file has been renamed to a different place, it is
    found there and no longer at the old place. *)
Lemma rename_file_moved w old new w' co cn :
  resolve w old = Some co → resolve w new = Some cn →
  is_file (lookup co (tree w)) = true → co ≠ cn →
  rename w old new = Some w' →
  access w' new = Some () ∧ access w' old = None.
Proof.
  intros Hco Hcn Hfile Hne Hren.
  destruct (lookup co (tree w)) as [[data | m] |] eqn:Hsrc; try done.
  destruct (rename_file_inv _ _ _ _ _ _ Hco Hsrc Hren)
    as (cn' & Hcn' & Hso & Hsn & [[? _] | (_ & Hnd & ->)]);
    rewrite Hcn in Hcn'; injection Hcn' as <-; [done |].
  set (t1 := update co None (tree w)).
  set (t2 := update cn (Some (File data)) t1).
  assert (∀ q, is_dir (lookup q t1) = is_dir (lookup q (tree w))) as H1.
  { intros q. apply is_dir_update_file; [done | by rewrite Hsrc]. }
  assert (∀ q, is_dir (lookup q t2) = is_dir (lookup q (tree w))) as H2.
  { intros q. rewrite <- H1. apply is_dir_update_file; [done |].
    by rewrite H1. }
  assert (tree (with_tree w t2) = t2) as Htree.
  { apply tree_with_tree. unfold t2, t1. by rewrite !update_keeps_dir. }
  assert (∀ path, resolve (with_tree w t2) path = resolve w path) as Hres.
  { intros path. apply resolve_ext; [apply cwd_with_tree |].
    by rewrite Htree. }
  assert (lookup co t1 = None) as Hgone.
  { apply lookup_update_eq; [| by eapply resolve_anchored].
    apply (not_dir_nonempty (tree w)); [done | by rewrite Hsrc]. }
  unfold access. rewrite !Hres, Hco, Hcn, Htree. simpl. split.
  - unfold t2. rewrite lookup_update_eq, Hsn; [done | |].
    + by apply (not_dir_nonempty (tree w)).
    + destruct (resolve_anchored _ _ _ Hcn) as [-> | Hp]; [by left |].
      right. by rewrite H1.
  - unfold t2. by rewrite lookup_update_None.
Qed.

(** *** [mkdir] with [recursive] *)

(** Whether it succeeds or not, [mkdir] only adds directories. *)
Lemma mkdir_walk_extends t cur segs ok t' :
  mkdir_walk t cur segs = (ok, t') → extends t t'.
Proof.
  revert t cur. induction segs as [|seg rest IH]; intros t cur; simpl.
  - intros [= _ <-]. apply extends_refl.
  - case_decide; [by apply IH |].
    destruct (name_fits seg); [| intros [= _ <-]; apply extends_refl].
    destruct (is_dir (lookup cur t)) eqn:Hd;
      [| intros [= _ <-]; apply extends_refl].
    destruct (lookup (enter cur seg) t) eqn:Hnext; [by apply IH |].
    intros Hw. eapply extends_trans; [| by eapply IH].
    by apply extends_update_fresh.
Qed.

(** Creating the directories a second time changes nothing. *)
Lemma mkdir_walk_idem t cur segs t' :
  mkdir_walk t cur segs = (true, t') → mkdir_walk t' cur segs = (true, t').
Proof.
  revert t cur. induction segs as [|seg rest IH]; intros t cur; simpl.
  - intros [= Hd <-]. by rewrite Hd.
  - case_decide; [by apply IH |].
    destruct (name_fits seg); [| done].
    destruct (is_dir (lookup cur t)) eqn:Hd; [| done].
    set (next := enter cur seg).
    destruct (lookup next t) eqn:Hnext.
    + intros Hw. pose proof (mkdir_walk_extends _ _ _ _ _ Hw) as Hext.
      rewrite (extends_is_dir t t' cur) by done.
      destruct (Hext next) as [[x ->] _]; [by rewrite Hnext |].
      by eapply IH.
    + intros Hw. pose proof (mkdir_walk_extends _ _ _ _ _ Hw) as Hext.
      pose proof (extends_update_fresh next (Dir ∅) t Hnext) as Hext0.
      rewrite (extends_is_dir t t' cur);
        [| by eapply extends_trans | done].
      destruct (Hext next) as [[x ->] _]; [| by eapply IH].
      rewrite lookup_update_eq; [done | | by apply enter_anchored].
      intros E. by rewrite E in Hnext.
Qed.

Lemma mkdir_walk_keeps_root t cur segs ok t' :
  is_dir (Some t) = true → mkdir_walk t cur segs = (ok, t') →
  is_dir (Some t') = true.
Proof.
  intros Ht Hw.
  destruct (mkdir_walk_extends _ _ _ _ _ Hw []) as [_ E]; [done |].
  change (is_dir (Some t') = is_dir (Some t)) in E. congruence.
Qed.

Lemma mkdir_recursive_idem w path w' :
  mkdir_recursive w path = (true, w') → mkdir_recursive w' path = (true, w').
Proof.
  unfold mkdir_recursive. destruct (valid_path path); [| done].
  destruct (mkdir_walk (tree w) _ _) as [ok t] eqn:Hw.
  intros [= -> <-].
  assert (tree (with_tree w t) = t) as Htree.
  { apply tree_with_tree.
    by apply (mkdir_walk_keeps_root (tree w) _ _ _ _ eq_refl Hw). }
  rewrite cwd_with_tree, Htree, (mkdir_walk_idem _ _ _ _ Hw).
  by destruct t.
Qed.

End FsFacts.

(* ===================================================================== *)
(** ** Where joined paths lead *)
(* ===================================================================== *)

Module LocateFacts.
Import Fs.

Lemma readFile_inv w path data :
  readFile w path = Some data →
  ∃ c, resolve w path = Some c ∧ lookup c (tree w) = Some (File data).
Proof.
  unfold readFile. destruct (resolve w path) as [c |]; simpl; [| done].
  destruct (lookup c (tree w)) as [[d | m] |] eqn:Hc; [| done | done].
  destruct (Str.ends_with_slash path); [done |].
  intros [= ->]. exists c. by split.
Qed.

(** A normalised path is followed segment by segment. *)
Lemma resolve_render w abs (segs : list string) :
  segs ≠ [] → Forall (λ seg, seg ≠ "" ∧ Str.lacks "/" seg = true) segs →
  resolve w (Path.render abs segs)
  = if valid_path (Path.render abs segs)
    then walk (tree w) (if abs then [] else cwd w) segs else None.
Proof.
  intros Hne Hall. unfold resolve.
  rewrite PathFacts.render_starts_with_slash, PathFacts.split_render by done.
  by destruct abs.
Qed.

Lemma walk_name t cur name :
  Path.is_name name = true →
  walk t cur [name]
  = if name_fits name && is_dir (lookup cur t)
    then Some (cur ++ [name]) else None.
Proof.
  rewrite PathFacts.is_name_spec. intros (? & ? & ? & _).
  simpl. unfold enter. rewrite !decide_False by done.
  destruct (name_fits name); [| done]. by destruct (is_dir _).
Qed.

(** The path of an entry in a folder leads to the entry of that name in the
    place the path of the folder leads to. *)
Lemma resolve_entry w folder name d :
  resolve w folder = Some d → Path.is_name name = true →
  resolve w (folder +:+ "/" +:+ name)
  = if valid_path (folder +:+ "/" +:+ name) && name_fits name
       && is_dir (lookup d (tree w))
    then Some (d ++ [name]) else None.
Proof.
  unfold resolve. destruct (valid_path folder) eqn:Hfolder; [| done].
  apply FsFacts.valid_path_inv in Hfolder as (Hne & _ & _).
  intros Hwalk Hname.
  destruct (valid_path (folder +:+ "/" +:+ name)); [| done].
  rewrite StrFacts.starts_with_slash_app by done.
  change (folder +:+ "/" +:+ name) with (folder +:+ String "/" name).
  rewrite StrFacts.split_app, FsFacts.walk_app, Hwalk.
  pose proof Hname as (_ & _ & _ & Hlacks)%PathFacts.is_name_spec.
  rewrite (StrFacts.split_lacks "/" name) by done.
  change (walk (tree w) d [name]
          = if true && name_fits name && is_dir (lookup d (tree w))
            then Some (d ++ [name]) else None).
  by rewrite walk_name.
Qed.

Lemma resolve_entry_None w folder name :
  folder ≠ "" → resolve w folder = None →
  resolve w (folder +:+ "/" +:+ name) = None.
Proof.
  intros Hne. unfold resolve.
  destruct (valid_path (folder +:+ "/" +:+ name)) eqn:Hvalid; [| done].
  rewrite (FsFacts.entry_path_valid_inv _ _ Hne Hvalid). intros Hwalk.
  rewrite StrFacts.starts_with_slash_app by done.
  change (folder +:+ "/" +:+ name) with (folder +:+ String "/" name).
  by rewrite StrFacts.split_app, FsFacts.walk_app, Hwalk.
Qed.

(** A path made of a base, a directory name and an entry name leads to the
    entry of that name in the place the directory part leads to. *)
Lemma resolve_join_entry w base dir name :
  base ≠ "" → Path.is_name dir = true → Path.is_name name = true →
  resolve w (Path.join base (dir +:+ "/" +:+ name))
  = if valid_path (Path.join base (dir +:+ "/" +:+ name)) then
      walk (tree w) (if Str.starts_with_slash base then [] else cwd w)
           (reverse (Path.kept base) ++ [dir])
      ≫= λ d, if name_fits name && is_dir (lookup d (tree w))
              then Some (d ++ [name]) else None
    else None.
Proof.
  intros Hbase Hdir Hname.
  change (dir +:+ "/" +:+ name) with (Str.join "/" [dir; name]).
  rewrite (PathFacts.join_names base [dir; name])
    by (by repeat constructor).
  assert (Forall (λ seg, seg ≠ "" ∧ Str.lacks "/" seg = true)
                 (reverse (Path.kept base) ++ [dir; name])) as Hall.
  { apply Forall_app. split.
    - apply Forall_reverse. eapply PathFacts.normal_pieces.
      apply PathFacts.normal_kept.
    - apply PathFacts.names_pieces. by repeat constructor. }
  rewrite resolve_render; [| by destruct (reverse (Path.kept base)) | done].
  destruct (valid_path _); [| done].
  change [dir; name] with ([dir] ++ [name]).
  rewrite (assoc (++)), FsFacts.walk_app.
  destruct (walk _ _ (reverse (Path.kept base) ++ [dir])) as [d |];
    simpl; [| done].
  by apply walk_name.
Qed.

(** Two different entry names in the same directory lead to different
    places. *)
Lemma resolve_join_entry_apart w base dir name1 name2 c :
  base ≠ "" → Path.is_name dir = true →
  Path.is_name name1 = true → Path.is_name name2 = true →
  name1 ≠ name2 →
  resolve w (Path.join base (dir +:+ "/" +:+ name1)) = Some c →
  resolve w (Path.join base (dir +:+ "/" +:+ name2)) ≠ Some c.
Proof.
  intros Hbase Hdir H1 H2 Hne.
  rewrite !resolve_join_entry by done.
  destruct (valid_path _); [| done].
  destruct (valid_path _); [| done].
  destruct (walk _ _ _) as [d |]; simpl; [| done].
  destruct (name_fits name1 && is_dir (lookup d (tree w))); [| done].
  destruct (name_fits name2 && is_dir (lookup d (tree w))); [| done].
  intros [= <-] [= E]. by apply app_inv_head in E as [= ?].
Qed.

(** After [mkdir], the path leads to a directory. *)
Lemma mkdir_walk_walk t cur segs t' :
  mkdir_walk t cur segs = (true, t') →
  ∃ c, walk t' cur segs = Some c ∧ is_dir (lookup c t') = true.
Proof.
  revert t cur. induction segs as [|seg rest IH]; intros t cur; simpl.
  - intros [= Hd <-]. by exists cur.
  - case_decide; [by apply IH |].
    destruct (name_fits seg); [| done].
    destruct (is_dir (lookup cur t)) eqn:Hd; [| done].
    destruct (lookup (enter cur seg) t) eqn:Hnext; intros Hw.
    + rewrite (FsFacts.extends_is_dir t t' cur);
        [by eapply IH | by eapply FsFacts.mkdir_walk_extends | done].
    + rewrite (FsFacts.extends_is_dir t t' cur); [by eapply IH | | done].
      eapply FsFacts.extends_trans;
        [by apply FsFacts.extends_update_fresh
        | by eapply FsFacts.mkdir_walk_extends].
Qed.

End LocateFacts.

(* ===================================================================== *)
(** ** Further facts about the file system *)
(* ===================================================================== *)

Module FrameFacts.
Import Fs.

(** A new entry at a free place leaves every regular file as it is. *)
Lemma lookup_update_fresh_file p v t q d :
  lookup p t = None → lookup q t = Some (File d) →
  lookup q (update p v t) = Some (File d).
Proof.
  revert t q. induction p as [|s p IH]; intros t q Hp Hq; [done |].
  destruct t as [d0 | m]; [done |].
  destruct q as [|s2 q]; [done |].
  destruct (decide (p = [])) as [-> | Hne].
  - simpl in *. rewrite lookup_partial_alter.
    case_decide; [subst s2 | done].
    by destruct (m !! s).
  - rewrite FsFacts.update_cons by done. simpl in *. rewrite lookup_alter.
    case_decide; [subst s2 | done].
    destruct (m !! s) as [c |]; simpl in *; [| done]. by apply IH.
Qed.

(** Changing the entry at a place that is not a directory leaves the
    regular files at the other places as they are. *)
Lemma lookup_update_other_file c v t q d :
  q ≠ c → is_dir (lookup c t) = false → lookup q t = Some (File d) →
  lookup q (update c v t) = Some (File d).
Proof.
  revert t q. induction c as [|s c IH]; intros t q Hqc Hc Hq; [done |].
  destruct t as [d0 | m]; [done |].
  destruct q as [|s2 q]; [done |].
  destruct (decide (c = [])) as [-> | Hne].
  - simpl in *. rewrite lookup_partial_alter.
    case_decide; [subst s2 | done].
    destruct (m !! s) as [[? | ?] |]; simpl in *; try done.
    destruct q; [done | done].
  - rewrite FsFacts.update_cons by done. simpl in *. rewrite lookup_alter.
    case_decide; [subst s2 | done].
    destruct (m !! s) as [x |]; simpl in *; [| done].
    apply IH; [congruence | done | done].
Qed.

Lemma walk_extends t t' cur segs c :
  extends t t' → walk t cur segs = Some c → walk t' cur segs = Some c.
Proof.
  intros Hext. revert cur.
  induction segs as [|seg rest IH]; intros cur; simpl; [done |].
  case_decide; [by apply IH |].
  destruct (name_fits seg); [| done].
  destruct (is_dir (lookup cur t)) eqn:Hd; [| done].
  rewrite (FsFacts.extends_is_dir t t' cur) by done. by apply IH.
Qed.

Lemma mkdir_walk_keeps_files t cur segs ok t' q d :
  mkdir_walk t cur segs = (ok, t') → lookup q t = Some (File d) →
  lookup q t' = Some (File d).
Proof.
  revert t cur. induction segs as [|seg rest IH]; intros t cur; simpl.
  - by intros [= _ <-].
  - case_decide; [by apply IH |].
    destruct (name_fits seg); [| by intros [= _ <-]].
    destruct (is_dir (lookup cur t)); [| by intros [= _ <-]].
    destruct (lookup (enter cur seg) t) eqn:Hnext; [by apply IH |].
    intros Hw Hq. eapply IH; [done |]. by apply lookup_update_fresh_file.
Qed.

(** What [mkdir] leaves, whether it succeeds or not. *)
Lemma mkdir_recursive_left w path ok w' :
  mkdir_recursive w path = (ok, w') →
  cwd w' = cwd w ∧ extends (tree w) (tree w')
  ∧ (∀ q d, lookup q (tree w) = Some (File d) →
            lookup q (tree w') = Some (File d)).
Proof.
  unfold mkdir_recursive. destruct (valid_path path).
  - destruct (mkdir_walk (tree w) _ _) as [ok' t'] eqn:Hw.
    intros [= _ <-].
    assert (tree (with_tree w t') = t') as ->.
    { apply FsFacts.tree_with_tree.
      by apply (FsFacts.mkdir_walk_keeps_root (tree w) _ _ _ _ eq_refl Hw). }
    split; [apply FsFacts.cwd_with_tree |].
    split; [by eapply FsFacts.mkdir_walk_extends |].
    intros q d. by eapply mkdir_walk_keeps_files.
  - intros [= _ <-]. split; [done |]. split; [apply FsFacts.extends_refl | done].
Qed.

Lemma mkdir_recursive_inv w path w' :
  mkdir_recursive w path = (true, w') →
  ∃ t', mkdir_walk (tree w) (if Str.starts_with_slash path then [] else cwd w)
                   (Str.split "/" path) = (true, t')
        ∧ valid_path path = true ∧ tree w' = t' ∧ cwd w' = cwd w.
Proof.
  unfold mkdir_recursive. destruct (valid_path path); [| done].
  destruct (mkdir_walk (tree w) _ _) as [ok t'] eqn:Hw.
  intros [= -> <-]. exists t'. repeat split; [| apply FsFacts.cwd_with_tree].
  apply FsFacts.tree_with_tree.
  by apply (FsFacts.mkdir_walk_keeps_root (tree w) _ _ _ _ eq_refl Hw).
Qed.

(** After [mkdir], the path leads to a directory. *)
Lemma mkdir_recursive_is_directory w path w' :
  mkdir_recursive w path = (true, w') → is_directory w' path = true.
Proof.
  intros (t' & Hw & Hvalid & Htree & Hcwd)%mkdir_recursive_inv.
  destruct (LocateFacts.mkdir_walk_walk _ _ _ _ Hw) as (c & Hc & Hd).
  unfold is_directory, resolve.
  by rewrite Hvalid, Hcwd, Htree, Hc.
Qed.

(** [mkdir] leaves every file readable, with its content, whether it
    succeeds or not. *)
Lemma mkdir_recursive_readFile w path ok w' other d :
  mkdir_recursive w path = (ok, w') →
  readFile w other = Some d → readFile w' other = Some d.
Proof.
  intros (Hcwd & Hext & Hfiles)%mkdir_recursive_left.
  unfold readFile, resolve. rewrite Hcwd.
  destruct (valid_path other); [| done].
  destruct (walk (tree w) _ _) as [c |] eqn:Hc; simpl; [| done].
  rewrite (walk_extends _ (tree w') _ _ c Hext Hc). simpl.
  destruct (lookup c (tree w)) as [[d0 | m] |] eqn:Hfile; [| done | done].
  by rewrite (Hfiles _ _ Hfile).
Qed.

Lemma writeFile_resolve w path data w' other :
  writeFile w path data = Some w' → resolve w' other = resolve w other.
Proof.
  intros (c & Hres & Hslash & Hnd & ->)%FsFacts.writeFile_inv.
  apply FsFacts.resolve_ext; [apply FsFacts.cwd_with_tree |].
  intros q. rewrite FsFacts.tree_with_update.
  by apply FsFacts.is_dir_update_file.
Qed.

(** [writeFile] leaves the files at the other places as they are. *)
Lemma writeFile_frame w path data w' other d :
  writeFile w path data = Some w' →
  resolve w other ≠ resolve w path →
  readFile w other = Some d → readFile w' other = Some d.
Proof.
  intros Hwrite Hapart. unfold readFile.
  rewrite (writeFile_resolve _ _ _ _ other Hwrite).
  destruct (FsFacts.writeFile_inv _ _ _ _ Hwrite)
    as (c & Hres & Hslash & Hnd & ->).
  destruct (resolve w other) as [q |]; simpl; [| done].
  rewrite FsFacts.tree_with_update.
  destruct (lookup q (tree w)) as [[d0 | m] |] eqn:Hfile; [| done | done].
  rewrite (lookup_update_other_file c _ _ q d0); [done | | done | done].
  intros ->. by rewrite Hres in Hapart.
Qed.

(** [unlink] leaves the files at the other places as they are. *)
Lemma unlink_frame w path w' other d :
  unlink w path = Some w' →
  resolve w other ≠ resolve w path →
  readFile w other = Some d → readFile w' other = Some d.
Proof.
  intros (c & data & Hres & Hslash & Hc & ->)%FsFacts.unlink_inv Hapart.
  assert (is_dir (lookup c (tree w)) = false) as Hnd by by rewrite Hc.
  unfold readFile.
  assert (resolve (with_tree w (update c None (tree w))) other
          = resolve w other) as ->.
  { apply FsFacts.resolve_ext; [apply FsFacts.cwd_with_tree |].
    intros q. rewrite FsFacts.tree_with_update.
    by apply FsFacts.is_dir_update_file. }
  destruct (resolve w other) as [q |]; simpl; [| done].
  rewrite FsFacts.tree_with_update.
  destruct (lookup q (tree w)) as [[d0 | m] |] eqn:Hfile; [| done | done].
  rewrite (lookup_update_other_file c _ _ q d0); [done | | done | done].
  intros ->. by rewrite Hres in Hapart.
Qed.

(** A directory cannot be read or unlinked, but it can be found. *)
Lemma is_directory_calls w path :
  is_directory w path = true →
  access w path = Some () ∧ readFile w path = None ∧ unlink w path = None.
Proof.
  unfold is_directory, access, readFile, unlink.
  destruct (resolve w path) as [c |]; simpl; [| done].
  by destruct (lookup c (tree w)) as [[d | m] |].
Qed.

(** What [rename] does to a regular file: the content is under the new
    path, and the files at other places are as they were. *)
Lemma rename_file_content w old new w' data :
  readFile w old = Some data → rename w old new = Some w' →
  readFile w' new = Some data
  ∧ (∀ other d, resolve w other ≠ resolve w old →
                resolve w other ≠ resolve w new →
                readFile w other = Some d → readFile w' other = Some d).
Proof.
  intros (co & Hco & Hsrc)%LocateFacts.readFile_inv Hren.
  destruct (FsFacts.rename_file_inv _ _ _ _ _ _ Hco Hsrc Hren)
    as (cn & Hcn & Hso & Hsn & [[<- ->] | (Hne & Hnd & ->)]).
  { split; [| done]. unfold readFile. by rewrite Hcn, Hsn; simpl; rewrite Hsrc. }
  set (t1 := update co None (tree w)).
  set (t2 := update cn (Some (File data)) t1).
  assert (∀ q, is_dir (lookup q t1) = is_dir (lookup q (tree w))) as H1.
  { intros q. apply FsFacts.is_dir_update_file; [done | by rewrite Hsrc]. }
  assert (∀ q, is_dir (lookup q t2) = is_dir (lookup q (tree w))) as H2.
  { intros q. rewrite <- H1. apply FsFacts.is_dir_update_file; [done |].
    by rewrite H1. }
  assert (tree (with_tree w t2) = t2) as Htree.
  { apply FsFacts.tree_with_tree. unfold t2, t1.
    by rewrite !FsFacts.update_keeps_dir. }
  assert (∀ path, resolve (with_tree w t2) path = resolve w path) as Hres.
  { intros path. apply FsFacts.resolve_ext; [apply FsFacts.cwd_with_tree |].
    by rewrite Htree. }
  unfold readFile. split.
  - rewrite Hres, Hcn, Htree. simpl. unfold t2.
    rewrite FsFacts.lookup_update_eq, Hsn; [done | |].
    + by apply (FsFacts.not_dir_nonempty (tree w)).
    + destruct (FsFacts.resolve_anchored _ _ _ Hcn) as [-> | Hp]; [by left |].
      right. by rewrite H1.
  - intros other d Ho Hn. rewrite Hres, Htree.
    destruct (resolve w other) as [q |]; simpl; [| done].
    destruct (lookup q (tree w)) as [[d0 | m] |] eqn:Hfile; [| done | done].
    unfold t2. rewrite (lookup_update_other_file cn _ _ q d0); [done | | |].
    + intros ->. by rewrite Hcn in Hn.
    + by rewrite H1.
    + unfold t1. apply lookup_update_other_file; [| by rewrite Hsrc | done].
      intros ->. by rewrite Hco in Ho.
Qed.

(** [unlink] makes nothing appear. *)
Lemma unlink_access_None w other w' path :
  unlink w other = Some w' → access w path = None → access w' path = None.
Proof.
  intros (c & data & Hres & Hslash & Hc & ->)%FsFacts.unlink_inv.
  assert (is_dir (lookup c (tree w)) = false) as Hnd by by rewrite Hc.
  unfold access.
  assert (resolve (with_tree w (update c None (tree w))) path
          = resolve w path) as ->.
  { apply FsFacts.resolve_ext; [apply FsFacts.cwd_with_tree |].
    intros q. rewrite FsFacts.tree_with_update.
    by apply FsFacts.is_dir_update_file. }
  destruct (resolve w path) as [q |]; simpl; [| done].
  rewrite FsFacts.tree_with_update.
  destruct (decide (q = c)) as [-> | Hqc].
  - rewrite FsFacts.lookup_update_eq; [done | |].
    + by apply (FsFacts.not_dir_nonempty (tree w)).
    + by eapply FsFacts.resolve_anchored.
  - destruct (lookup q (tree w)) as [[d0 | m] |] eqn:Hq; [| done |].
    + by rewrite (lookup_update_other_file c None _ q d0).
    + by rewrite FsFacts.lookup_update_None.
Qed.

End FrameFacts.

(* ===================================================================== *)
(** ** Further facts about names and paths *)
(* ===================================================================== *)

Module NameFacts.
Import Str.

Lemma of_number_inj (n m : N) : of_number n = of_number m → n = m.
Proof.
  unfold of_number. intros E. apply DecimalN.Unsigned.to_uint_inj.
  apply (f_equal NilEmpty.uint_of_string) in E.
  rewrite !NilEmpty.usu in E. congruence.
Qed.

Lemma is_digit_not_dash (c : ascii) : is_digit c = true → c ≠ "-"%char.
Proof. intros H ->. vm_compute in H. done. Qed.

(** A run of digits followed by a dash can be read back. *)
Lemma digits_dash_inj (a b x y : string) :
  all_chars is_digit a = true → all_chars is_digit b = true →
  a +:+ "-" +:+ x = b +:+ "-" +:+ y → a = b ∧ x = y.
Proof.
  revert b. induction a as [|c a IH]; intros [|d b]; simpl.
  - by intros _ _ [= ->].
  - rewrite andb_true_iff. intros _ [Hd _] [= <- _].
    by apply is_digit_not_dash in Hd.
  - rewrite andb_true_iff. intros [Hc _] _ [= -> _].
    by apply is_digit_not_dash in Hc.
  - rewrite !andb_true_iff. intros [_ Ha] [_ Hb] [= -> E].
    destruct (IH b Ha Hb E) as [-> ->]. done.
Qed.

Lemma starts_with_app (a b : string) : starts_with a (a +:+ b) = true.
Proof.
  induction a as [|c a IH]; simpl; [done |].
  by rewrite bool_decide_eq_true_2, IH.
Qed.

Lemma replace_idempotent (s : string) :
  replace_not_in_class (replace_not_in_class s) = replace_not_in_class s.
Proof.
  induction s as [|c s IH]; simpl; [done |]. rewrite IH.
  destruct (in_class c) eqn:Hc; [by rewrite Hc | done].
Qed.

Lemma replace_in_class (s : string) :
  all_chars in_class s = true → replace_not_in_class s = s.
Proof.
  induction s as [|c s IH]; simpl; [done |].
  rewrite andb_true_iff. intros [-> Hs]. by rewrite IH.
Qed.

Lemma replace_alphabet (s : string) :
  all_chars (λ c, in_class c || bool_decide (c = "_"%char))
            (replace_not_in_class s) = true.
Proof.
  induction s as [|c s IH]; simpl; [done |]. rewrite IH, andb_true_r.
  destruct (in_class c) eqn:Hc; [by rewrite Hc | done].
Qed.

Lemma replace_app (a b : string) :
  replace_not_in_class (a +:+ b)
  = replace_not_in_class a +:+ replace_not_in_class b.
Proof. induction a as [|c a IH]; simpl; [done | by rewrite IH]. Qed.

(** The path of a stored file is the uploads folder, a slash and the file
    name. *)
Lemma join_uploads_name (base name : string) :
  base ≠ "" → Path.is_name name = true →
  Path.join base ("uploads/" +:+ name)
  = Path.join base "uploads" +:+ "/" +:+ name.
Proof.
  intros Hbase Hname.
  change ("uploads/" +:+ name) with (Str.join "/" ["uploads"; name]).
  rewrite (PathFacts.join_names base ["uploads"; name])
    by (by repeat constructor).
  rewrite (PathFacts.join_name base "uploads") by done.
  unfold Path.render.
  change ["uploads"; name] with (["uploads"] ++ [name]).
  rewrite (assoc (++)), StrFacts.join_snoc
    by by destruct (reverse (Path.kept base)).
  by rewrite StrFacts.append_assoc.
Qed.

(** Sanitized names and decimal numbers are made of ASCII characters other
    than NUL: they have as many bytes as characters. *)
Lemma in_class_ascii (c : ascii) :
  in_class c = true → c ≠ "000"%char ∧ (N_of_ascii c <? 128)%N = true.
Proof. destruct c as [[] [] [] [] [] [] [] []]; by vm_compute. Qed.

Lemma is_digit_ascii (c : ascii) :
  is_digit c = true → c ≠ "000"%char ∧ (N_of_ascii c <? 128)%N = true.
Proof. destruct c as [[] [] [] [] [] [] [] []]; by vm_compute. Qed.

Lemma utf8_length_ascii (s : string) :
  all_chars (λ c, (N_of_ascii c <? 128)%N) s = true →
  Fs.utf8_length s = String.length s.
Proof.
  induction s as [|c s IH]; simpl; [done |].
  rewrite andb_true_iff. intros [-> Hs]. by rewrite IH.
Qed.

Lemma replace_ascii (s : string) :
  lacks "000" (replace_not_in_class s) = true
  ∧ all_chars (λ c, (N_of_ascii c <? 128)%N) (replace_not_in_class s) = true.
Proof.
  unfold lacks. induction s as [|c s [IH1 IH2]]; simpl; [done |].
  rewrite IH1, IH2, !andb_true_r.
  destruct (in_class c) eqn:Hc; [| done].
  destruct (in_class_ascii c Hc) as [Hnul Hlow].
  split; [| done]. by apply negb_true_iff, bool_decide_eq_false.
Qed.

Lemma of_number_ascii (n : N) :
  lacks "000" (of_number n) = true
  ∧ all_chars (λ c, (N_of_ascii c <? 128)%N) (of_number n) = true.
Proof.
  split; (eapply StrFacts.all_chars_impl; [| apply StrFacts.of_number_digits]);
    intros c [Hnul Hlow]%is_digit_ascii; [| done].
  by apply negb_true_iff, bool_decide_eq_false.
Qed.

Lemma inside_folder (folder name : string) :
  inside folder (folder +:+ "/" +:+ name) = true.
Proof.
  unfold inside. rewrite <- StrFacts.append_assoc, starts_with_app.
  apply orb_true_r.
Qed.

End NameFacts.

(* ===================================================================== *)
(** ** The library models on concrete inputs *)
(* ===================================================================== *)

Example path_join_1 : Path.join "/app/storage" "uploads" = "/app/storage/uploads".
Proof. vm_compute. reflexivity. Qed.
Example path_join_2 : Path.join "/app/storage" "../../etc/passwd" = "/etc/passwd".
Proof. vm_compute. reflexivity. Qed.
Example path_join_3 : Path.join "../a/" "./b//c/../d/" = "../a/b/d/".
Proof. vm_compute. reflexivity. Qed.
Example path_join_4 : Path.join "/" "../.." = "/".
Proof. vm_compute. reflexivity. Qed.
Example path_join_5 : Path.join "a" "../.." = "..".
Proof. vm_compute. reflexivity. Qed.
Example split_1 : Str.split "." "a.tar.gz" = ["a"; "tar"; "gz"].
Proof. vm_compute. reflexivity. Qed.
Example split_2 : Str.split "." "" = [""].
Proof. vm_compute. reflexivity. Qed.
Example split_3 : Str.split "/" "/a//b/" = [""; "a"; ""; "b"; ""].
Proof. vm_compute. reflexivity. Qed.
Example num_1 : Str.of_number 1700000000000 = "1700000000000".
Proof. vm_compute. reflexivity. Qed.
Example num_2 : Str.of_number 0 = "0".
Proof. vm_compute. reflexivity. Qed.
Example low_1 : Str.toLowerCase "IMG.PNG" = "img.png".
Proof. vm_compute. reflexivity. Qed.
Example rep_1 : Str.replace_not_in_class "report 1.pdf" = "report_1.pdf".
Proof. vm_compute. reflexivity. Qed.

(** A small tree to try the [fs] calls on:
    [/srv/data/a.txt], [/srv/data/sub/b.txt], [/srv/empty/], working
    directory [/srv]. *)
Example fs_resolution :
  let w := Fs.State {[ "srv" := Fs.Dir
             {[ "data" := Fs.Dir {[ "a.txt" := Fs.File hello;
                                    "sub" := Fs.Dir {[ "b.txt" := Fs.File [] ]} ]};
                "empty" := Fs.Dir ∅ ]} ]} ["srv"] in
  Fs.readFile w "/srv/data/a.txt" = Some hello
  ∧ Fs.readFile w "data//sub/../a.txt" = Some hello
  ∧ Fs.readFile w "data/missing/../a.txt" = None
  ∧ Fs.readFile w "data/a.txt/" = None
  ∧ Fs.readFile w "data" = None
  ∧ Fs.access w "data/" = Some ()
  ∧ Fs.access w "../.." = Some ()
  ∧ Fs.access w "" = None
  ∧ Fs.access w "data/a.txt/." = None
  ∧ Fs.unlink w "data" = None
  ∧ Fs.unlink w "nothing" = None
  ∧ Fs.writeFile w "data" hello = None
  ∧ Fs.writeFile w "nowhere/x" hello = None
  ∧ Fs.mkdir_recursive w "data/a.txt/x" = (false, w)
  ∧ Fs.mkdir_recursive w "data/a.txt" = (false, w).
Proof. vm_compute. repeat split. Qed.

Example fs_changes :
  let w := Fs.State {[ "srv" := Fs.Dir
             {[ "data" := Fs.Dir {[ "a.txt" := Fs.File hello;
                                    "sub" := Fs.Dir {[ "b.txt" := Fs.File [] ]} ]};
                "empty" := Fs.Dir ∅ ]} ]} ["srv"] in
  (w' ← Fs.writeFile w "empty/c" hello; Fs.readFile w' "/srv/empty/c")
  = Some hello
  ∧ (w' ← Fs.writeFile w "data/a.txt" []; Fs.readFile w' "data/a.txt") = Some []
  ∧ (w' ← Fs.unlink w "data/a.txt"; Some (Fs.access w' "data/a.txt")) = Some None
  ∧ (Fs.mkdir_recursive w "x/y/z").1 = true
  ∧ Fs.access (Fs.mkdir_recursive w "x/y/z").2 "/srv/x/y/z/" = Some ()
  ∧ Fs.mkdir_recursive w "data/sub" = (true, w)
  ∧ (w' ← Fs.rename w "data/a.txt" "empty/a"; Some (Fs.readFile w' "empty/a",
                                                     Fs.access w' "data/a.txt"))
    = Some (Some hello, None)
  ∧ (w' ← Fs.rename w "data/a.txt" "data/sub/b.txt";
     Fs.readFile w' "data/sub/b.txt") = Some hello
  ∧ Fs.rename w "data/a.txt" "data/a.txt" = Some w
  ∧ Fs.rename w "data/a.txt" "empty" = None
  ∧ Fs.rename w "data/a.txt" "nowhere/a" = None
  ∧ Fs.rename w "data/missing" "empty/a" = None
  ∧ Fs.rename w "data" "data/sub/inner" = None
  ∧ Fs.rename w "empty" "data" = None
  ∧ Fs.rename w "data" "data/a.txt" = None
  ∧ (w' ← Fs.rename w "data" "empty"; Fs.readFile w' "/srv/empty/sub/b.txt")
    = Some []
  ∧ (w' ← Fs.rename w "/srv" "/moved"; Some (Fs.cwd w', Fs.readFile w' "data/a.txt"))
    = Some (["moved"], Some hello).
Proof. vm_compute. repeat split. Qed.

(** Names and paths that do not fit.  A name of 255 bytes is accepted, one
    of 256 is not, and a character above U+007F counts for two; a path of
    4096 bytes is refused whatever it leads to.  [mkdir] keeps the
    directories it made before it met the name that does not fit. *)
Example fs_limits :
  let w := Fs.State {[ "srv" := Fs.Dir {[ "f" := Fs.File hello ]} ]} ["srv"] in
  let deep := Str.join "/" (replicate 2047 ".") in
  is_Some (Fs.writeFile w (letters 255) hello)
  ∧ Fs.writeFile w (letters 256) hello = None
  ∧ Fs.writeFile w (String "233" (letters 254)) hello = None
  ∧ Fs.access w (letters 256 +:+ "/../f") = None
  ∧ Fs.rename w "f" (letters 256) = None
  ∧ is_Some (Fs.rename w "f" (letters 255))
  ∧ Fs.utf8_length (deep +:+ "/f") = 4095
  ∧ Fs.readFile w (deep +:+ "/f") = Some hello
  ∧ Fs.readFile w (deep +:+ "//f") = None
  ∧ Fs.access w (String "000" "f") = None
  ∧ (Fs.mkdir_recursive w ("x/y/" +:+ letters 256 +:+ "/z")).1 = false
  ∧ Fs.access w "x/y" = None
  ∧ Fs.access (Fs.mkdir_recursive w ("x/y/" +:+ letters 256 +:+ "/z")).2 "x/y"
    = Some ()
  ∧ Fs.mkdir_recursive w ("f/" +:+ letters 256) = (false, w).
Proof. vm_compute. repeat split; eauto. Qed.

(* ===================================================================== *)
(** ** What each exported function computes *)
(* ===================================================================== *)

Section Behaviour.

Variable env : option string.

Lemma STORAGE_BASE_PATH_nonempty : STORAGE_BASE_PATH env ≠ "".
Proof.
  unfold STORAGE_BASE_PATH. destruct env as [p |]; [| done].
  by case_decide.
Qed.

Lemma initializeStorage_spec w :
  initializeStorage env w
  = match Fs.mkdir_recursive w (UPLOADS_FOLDER env) with
    | (true, w') => (Returned (), w')
    | (false, w') => (Thrown StorageInitError, w')
    end.
Proof.
  unfold initializeStorage, try_catch, fs_mkdir_recursive.
  by destruct (Fs.mkdir_recursive w (UPLOADS_FOLDER env)) as [[] w'].
Qed.

Lemma uploadFile_spec buffer fileName now w :
  uploadFile env buffer fileName now w
  = let uniqueFileName :=
      Str.of_number now +:+ "-" +:+ Str.replace_not_in_class fileName in
    match Fs.mkdir_recursive w (UPLOADS_FOLDER env) with
    | (false, w1) => (Thrown UploadError, w1)
    | (true, w1) =>
        match Fs.writeFile w1 (Path.join (UPLOADS_FOLDER env) uniqueFileName) buffer with
        | None => (Thrown UploadError, w1)
        | Some w2 => (Returned ("uploads/" +:+ uniqueFileName), w2)
        end
    end.
Proof.
  unfold uploadFile, try_catch, await. rewrite initializeStorage_spec.
  destruct (Fs.mkdir_recursive w (UPLOADS_FOLDER env)) as [[] w1]; [| done].
  unfold fs_writeFile, fs_command. simpl.
  by destruct (Fs.writeFile w1 _ buffer).
Qed.

Lemma getFilePath_spec relativePath w :
  getFilePath env relativePath w
  = match Fs.access w (Path.join (STORAGE_BASE_PATH env) relativePath) with
    | Some _ => (Returned (Path.join (STORAGE_BASE_PATH env) relativePath), w)
    | None => (Thrown NotFoundError, w)
    end.
Proof.
  unfold getFilePath, try_catch, await, fs_access, fs_query.
  by destruct (Fs.access w _).
Qed.

Lemma readFile_spec relativePath w :
  readFile env relativePath w
  = match Fs.readFile w (Path.join (STORAGE_BASE_PATH env) relativePath) with
    | Some buffer => (Returned buffer, w)
    | None => (Thrown ReadError, w)
    end.
Proof.
  unfold readFile, try_catch, await. rewrite getFilePath_spec.
  unfold fs_readFile, fs_query.
  destruct (Fs.readFile w _) as [buffer |] eqn:Hread.
  - by rewrite (FsFacts.readFile_access _ _ _ Hread), Hread.
  - destruct (Fs.access w _); [by rewrite Hread | done].
Qed.

Lemma deleteFile_spec relativePath w :
  deleteFile env relativePath w
  = (Returned (),
     default w (Fs.unlink w (Path.join (STORAGE_BASE_PATH env) relativePath))).
Proof.
  unfold deleteFile, try_catch, await, fs_unlink, fs_command.
  by destruct (Fs.unlink w _).
Qed.

Lemma renameFile_spec oldPath newFileName now w :
  renameFile env oldPath newFileName now w
  = let newRelativePath :=
      "uploads/" +:+ Str.of_number now +:+ "-"
      +:+ Str.replace_not_in_class newFileName in
    match Fs.rename w (Path.join (STORAGE_BASE_PATH env) oldPath)
                    (Path.join (STORAGE_BASE_PATH env) newRelativePath) with
    | Some w' => (Returned newRelativePath, w')
    | None => (Thrown RenameError, w)
    end.
Proof.
  unfold renameFile, try_catch, await, fs_rename, fs_command. simpl.
  by destruct (Fs.rename w _ _).
Qed.

Lemma checkStorage_spec w :
  checkStorage env w
  = match Fs.access w (STORAGE_BASE_PATH env) with
    | Some _ => (Returned true, w)
    | None =>
        match Fs.mkdir_recursive w (UPLOADS_FOLDER env) with
        | (true, w') => (Returned true, w')
        | (false, w') => (Returned false, w')
        end
    end.
Proof.
  unfold checkStorage, try_catch, await, fs_access, fs_query.
  destruct (Fs.access w (STORAGE_BASE_PATH env)); [done |].
  rewrite initializeStorage_spec.
  by destruct (Fs.mkdir_recursive w (UPLOADS_FOLDER env)) as [[] w'].
Qed.

(** The file name [uploadFile] and [renameFile] derive is one path
    component. *)
Lemma uniqueFileName_is_name now fileName :
  Path.is_name (Str.of_number now +:+ "-" +:+ Str.replace_not_in_class fileName)
  = true.
Proof.
  apply PathFacts.is_name_spec.
  pose proof (StrFacts.of_number_digits now) as Hdigits.
  pose proof (StrFacts.of_number_nonempty now) as Hne.
  assert (Str.lacks "/" (Str.of_number now +:+ "-"
                         +:+ Str.replace_not_in_class fileName) = true)
    as Hlack.
  { unfold Str.lacks. rewrite !StrFacts.all_chars_app.
    fold (Str.lacks "/" (Str.of_number now)).
    fold (Str.lacks "/" (Str.replace_not_in_class fileName)).
    by rewrite StrFacts.of_number_lacks_slash, StrFacts.replace_lacks_slash. }
  destruct (Str.of_number now) as [|d digits]; [done |].
  simpl in Hdigits. apply andb_true_iff in Hdigits as [Hd _].
  apply StrFacts.is_digit_not_dot in Hd.
  repeat split; [done | | | done]; intros [= ? _]; done.
Qed.

Lemma UPLOADS_FOLDER_nonempty : UPLOADS_FOLDER env ≠ "".
Proof.
  unfold UPLOADS_FOLDER.
  rewrite (PathFacts.join_name _ "uploads")
    by (apply STORAGE_BASE_PATH_nonempty || done).
  apply PathFacts.render_nonempty;
    [by destruct (reverse (Path.kept (STORAGE_BASE_PATH env))) |].
  apply Forall_app. split.
  - apply Forall_reverse. eapply PathFacts.normal_pieces.
    apply PathFacts.normal_kept.
  - by repeat constructor.
Qed.


(** The stored name has as many bytes as the decimal timestamp, the dash
    and the file name have characters. *)
Lemma uniqueFileName_bytes now fileName :
  Fs.utf8_length (Str.of_number now +:+ "-"
                  +:+ Str.replace_not_in_class fileName)
  = String.length (Str.of_number now) + 1 + String.length fileName.
Proof.
  rewrite NameFacts.utf8_length_ascii.
  - rewrite !StrFacts.append_length, StrFacts.replace_length. simpl. lia.
  - rewrite !StrFacts.all_chars_app.
    destruct (NameFacts.of_number_ascii now) as [_ ->].
    by destruct (NameFacts.replace_ascii fileName) as [_ ->].
Qed.

(** [getFilePath] resolves the path [uploadFile] returns to the path
    [uploadFile] wrote. *)
Lemma stored_path_resolution now fileName :
  Path.join (STORAGE_BASE_PATH env) ("uploads/" +:+ Str.of_number now +:+ "-"
                  +:+ Str.replace_not_in_class fileName)
  = Path.join (UPLOADS_FOLDER env) (Str.of_number now +:+ "-"
                       +:+ Str.replace_not_in_class fileName).
Proof.
  unfold UPLOADS_FOLDER.
  rewrite PathFacts.join_join_name;
    [done | apply STORAGE_BASE_PATH_nonempty | done
    | apply uniqueFileName_is_name].
Qed.

End Behaviour.

(** What a returning [renameFile] has done. *)
Lemma renameFile_returned
    (env : option string) (oldPath newFileName : string) (now : N)
    (w w' : Fs.state) (newPath : string) :
  renameFile env oldPath newFileName now w = (Returned newPath, w') →
  newPath = "uploads/" +:+ Str.of_number now +:+ "-"
            +:+ Str.replace_not_in_class newFileName
  ∧ Fs.rename w (Path.join (STORAGE_BASE_PATH env) oldPath)
                (Path.join (STORAGE_BASE_PATH env) newPath) = Some w'.
Proof.
  rewrite renameFile_spec. cbv zeta.
  destruct (Fs.rename w _ _) as [w1 |] eqn:Hren; [| done].
  intros Hreturn.
  assert (newPath = "uploads/" +:+ Str.of_number now +:+ "-"
                    +:+ Str.replace_not_in_class newFileName)
    as -> by congruence.
  assert (w1 = w') as -> by congruence. by split.
Qed.

(** Where a regular file is after [fs.rename] has moved it. *)
Lemma moved_file_paths
    (env : option string) (oldPath newPath : string) (w w' : Fs.state) :
  is_Some (Fs.readFile w (Path.join (STORAGE_BASE_PATH env) oldPath)) →
  Fs.rename w (Path.join (STORAGE_BASE_PATH env) oldPath)
              (Path.join (STORAGE_BASE_PATH env) newPath) = Some w' →
  Fs.resolve w (Path.join (STORAGE_BASE_PATH env) newPath)
  ≠ Fs.resolve w (Path.join (STORAGE_BASE_PATH env) oldPath) →
  Fs.access w' (Path.join (STORAGE_BASE_PATH env) newPath) = Some ()
  ∧ Fs.access w' (Path.join (STORAGE_BASE_PATH env) oldPath) = None.
Proof.
  intros [data (co & Hco & Hsrc)%LocateFacts.readFile_inv] Hren Hapart.
  destruct (FsFacts.rename_file_inv _ _ _ _ _ _ Hco Hsrc Hren)
    as (cn & Hcn & _).
  apply (FsFacts.rename_file_moved _ _ _ w' _ _ Hco Hcn);
    [by rewrite Hsrc | congruence | done].
Qed.

(* ===================================================================== *)
(** ** Properties claimed by the specification *)
(* ===================================================================== *)


(** C9.  For the same timestamp and the same file name, [renameFile] derives
    the relative path [uploadFile] derives, and it is the path of the
    specification, [uploads/<timestamp>-<sanitized name>]. *)
Theorem renameFile_derives_path_like_uploadFile
    (env : option string) (buffer : list byte) (oldPath fileName : string)
    (now : N) (w1 w1' w2 w2' : Fs.state) (uploaded renamed : string) :
  uploadFile env buffer fileName now w1 = (Returned uploaded, w1') →
  renameFile env oldPath fileName now w2 = (Returned renamed, w2') →
  renamed = uploaded ∧ uploaded = stored_relative_path now fileName.
Proof.
  rewrite uploadFile_spec, renameFile_spec. cbv zeta.
  destruct (Fs.mkdir_recursive w1 _) as [[] w]; [| done].
  destruct (Fs.writeFile w _ buffer); [| done].
  destruct (Fs.rename w2 _ _); [| done].
  by intros [= <- _] [= <- _].
Qed.

Lemma renameFile_derives_path_like_uploadFile_witness :
  "uploads/1700000000000-report_1.pdf" = "uploads/1700000000000-report_1.pdf"
  ∧ "uploads/1700000000000-report_1.pdf"
    = stored_relative_path 1700000000000 "report 1.pdf".
Proof.
  apply (renameFile_derives_path_like_uploadFile
           None hello "uploads/1700000000000-a" "report 1.pdf" 1700000000000
           fresh_machine
           (uploadFile None hello "report 1.pdf" 1700000000000
                       fresh_machine).2
           one_upload
           (renameFile None "uploads/1700000000000-a" "report 1.pdf"
                       1700000000000 one_upload).2);
    vm_compute; reflexivity.
Defined.


(** What a returning [uploadFile] has done. *)
Lemma uploadFile_returned
    (env : option string) (buffer : list byte) (fileName : string) (now : N)
    (w w' : Fs.state) (relativePath : string) :
  uploadFile env buffer fileName now w = (Returned relativePath, w') →
  relativePath = "uploads/" +:+ Str.of_number now +:+ "-"
                 +:+ Str.replace_not_in_class fileName
  ∧ ∃ w1, Fs.mkdir_recursive w (UPLOADS_FOLDER env) = (true, w1)
          ∧ Fs.writeFile w1 (Path.join (STORAGE_BASE_PATH env) relativePath)
                         buffer = Some w'.
Proof.
  rewrite uploadFile_spec. cbv zeta.
  destruct (Fs.mkdir_recursive w _) as [[] w1]; [| done].
  destruct (Fs.writeFile w1 _ buffer) as [w2 |] eqn:Hwrite; [| done].
  intros Hreturn.
  assert (relativePath = "uploads/" +:+ Str.of_number now +:+ "-"
                         +:+ Str.replace_not_in_class fileName)
    as -> by congruence.
  assert (w2 = w') as -> by congruence.
  split; [done |]. exists w1. split; [done |].
  by rewrite stored_path_resolution.
Qed.

(** A returning [uploadFile] has found room for the name: the stored name
    and the full path fit, and no directory stood where the file went. *)
Lemma uploadFile_returned_fits
    (env : option string) (buffer : list byte) (fileName : string) (now : N)
    (w w' : Fs.state) (relativePath : string) :
  uploadFile env buffer fileName now w = (Returned relativePath, w') →
  String.length (Str.of_number now) + 1 + String.length fileName ≤ Fs.NAME_MAX
  ∧ Fs.utf8_length (Path.join (STORAGE_BASE_PATH env)
                              (stored_relative_path now fileName))
    < Fs.PATH_MAX
  ∧ ∃ w1, initializeStorage env w = (Returned (), w1)
          ∧ Fs.is_directory w1 (Path.join (STORAGE_BASE_PATH env)
                                  (stored_relative_path now fileName)) = false.
Proof.
  pose proof (STORAGE_BASE_PATH_nonempty env) as Hbase.
  pose proof (uniqueFileName_is_name now fileName) as Hname.
  intros (-> & w1 & Hmk & Hwrite)%uploadFile_returned.
  rewrite <- uniqueFileName_bytes. unfold stored_relative_path.
  destruct (FsFacts.writeFile_inv _ _ _ _ Hwrite) as (c & Hres & _ & Hnd & _).
  assert (Fs.is_directory w1
            (Path.join (STORAGE_BASE_PATH env)
               ("uploads/" +:+ Str.of_number now +:+ "-"
                +:+ Str.replace_not_in_class fileName)) = false) as Hfree.
  { unfold Fs.is_directory. by rewrite Hres. }
  pose proof (FrameFacts.mkdir_recursive_is_directory _ _ _ Hmk) as Hdir.
  unfold Fs.is_directory in Hdir.
  destruct (Fs.resolve w1 (UPLOADS_FOLDER env)) as [d |] eqn:Hd; [| done].
  rewrite (NameFacts.join_uploads_name _ _ Hbase Hname) in Hres.
  fold (UPLOADS_FOLDER env) in Hres.
  rewrite (LocateFacts.resolve_entry _ _ _ d Hd Hname) in Hres.
  destruct (Fs.valid_path _) eqn:Hvalid; [| done].
  destruct (Fs.name_fits _) eqn:Hfit; [| done].
  apply FsFacts.valid_path_inv in Hvalid as (_ & _ & Hlen).
  apply FsFacts.name_fits_spec in Hfit.
  rewrite (NameFacts.join_uploads_name _ _ Hbase Hname) at 1.
  split; [done |]. split; [done |]. exists w1.
  by rewrite initializeStorage_spec, Hmk.
Qed.




(** C4.  [deleteFile] never raises: it returns normally on every path and
    in every state, and when the underlying [unlink] fails, as it does when
    nothing is at the path, the state is left as it was. *)
Theorem deleteFile_never_raises
    (env : option string) (relativePath : string) (w : Fs.state) :
  (∃ w', deleteFile env relativePath w = (Returned (), w'))
  ∧ (Fs.unlink w (Path.join (STORAGE_BASE_PATH env) relativePath) = None →
     deleteFile env relativePath w = (Returned (), w))
  ∧ (Fs.access w (Path.join (STORAGE_BASE_PATH env) relativePath) = None →
     deleteFile env relativePath w = (Returned (), w)).
Proof.
  rewrite deleteFile_spec. split; [eauto |]. split.
  - by intros ->.
  - intros Hmissing.
    destruct (Fs.unlink w _) as [w' |] eqn:Hunlink; [| done].
    assert (is_Some (Fs.readFile w (Path.join (STORAGE_BASE_PATH env)
                                              relativePath)))
      as [data Hread] by (apply FsFacts.unlink_is_Some; eauto).
    apply FsFacts.readFile_access in Hread. congruence.
Qed.

(** C3, as stated, fails: on a path that leads nowhere [getFilePath] raises
    [NotFoundError], but [readFile] catches it and raises [ReadError]. *)
Lemma readFile_missing_is_not_NotFoundError :
  Fs.access fresh_machine
            (Path.join (STORAGE_BASE_PATH None) "uploads/missing.pdf") = None
  ∧ getFilePath None "uploads/missing.pdf" fresh_machine
    = (Thrown NotFoundError, fresh_machine)
  ∧ readFile None "uploads/missing.pdf" fresh_machine
    = (Thrown ReadError, fresh_machine)
  ∧ (readFile None "uploads/missing.pdf" fresh_machine).1
    ≠ Thrown NotFoundError.
Proof. vm_compute. repeat split; done. Qed.

(** C3, amended.  For every relative path whose target does not exist or is
    inaccessible, [getFilePath] fails with [NotFoundError] and [readFile]
    fails with [ReadError], leaving the state as it was; [ReadError] is a
    different error, and it is the only one [readFile] ever raises. *)
Theorem readFile_missing_fails_with_ReadError
    (env : option string) (relativePath : string) (w : Fs.state) :
  Fs.access w (Path.join (STORAGE_BASE_PATH env) relativePath) = None →
  getFilePath env relativePath w = (Thrown NotFoundError, w)
  ∧ readFile env relativePath w = (Thrown ReadError, w)
  ∧ ReadError ≠ NotFoundError
  ∧ (∀ anyPath w0 e w0',
       readFile env anyPath w0 = (Thrown e, w0') → e = ReadError ∧ w0' = w0).
Proof.
  intros Hmissing. rewrite getFilePath_spec, readFile_spec, Hmissing.
  split; [done |]. split; [| split; [done |]].
  - destruct (Fs.readFile w _) as [data |] eqn:Hread; [| done].
    apply FsFacts.readFile_access in Hread. congruence.
  - intros anyPath w0 e w0'. rewrite readFile_spec.
    destruct (Fs.readFile w0 _); [done |]. by intros [= <- <-].
Qed.

Lemma readFile_missing_fails_with_ReadError_witness :
  getFilePath None "uploads/missing.pdf" fresh_machine
  = (Thrown NotFoundError, fresh_machine)
  ∧ readFile None "uploads/missing.pdf" fresh_machine
    = (Thrown ReadError, fresh_machine)
  ∧ ReadError ≠ NotFoundError
  ∧ (∀ anyPath w0 e w0',
       readFile None anyPath w0 = (Thrown e, w0') → e = ReadError ∧ w0' = w0).
Proof.
  apply (readFile_missing_fails_with_ReadError
           None "uploads/missing.pdf" fresh_machine).
  vm_compute. reflexivity.
Defined.

(** C7.  [renameFile] fails with [RenameError] whenever the source does not
    exist or the underlying rename fails, it raises nothing else, and every
    failing call leaves the state, hence the file at [oldPath], as it was. *)
Theorem renameFile_failure_changes_nothing
    (env : option string) (oldPath newFileName : string) (now : N)
    (w : Fs.state) :
  let oldFullPath := Path.join (STORAGE_BASE_PATH env) oldPath in
  let newFullPath :=
    Path.join (STORAGE_BASE_PATH env)
              ("uploads/" +:+ Str.of_number now +:+ "-"
               +:+ Str.replace_not_in_class newFileName) in
  (Fs.access w oldFullPath = None →
   renameFile env oldPath newFileName now w = (Thrown RenameError, w))
  ∧ (Fs.rename w oldFullPath newFullPath = None →
     renameFile env oldPath newFileName now w = (Thrown RenameError, w))
  ∧ (∀ e w', renameFile env oldPath newFileName now w = (Thrown e, w') →
             e = RenameError ∧ w' = w
             ∧ Fs.access w' oldFullPath = Fs.access w oldFullPath
             ∧ Fs.readFile w' oldFullPath = Fs.readFile w oldFullPath).
Proof.
  cbv zeta. rewrite renameFile_spec. cbv zeta. split; [| split].
  - intros Hmissing. by rewrite FsFacts.rename_missing.
  - by intros ->.
  - intros e w'. destruct (Fs.rename w _ _); [done |].
    by intros [= <- <-].
Qed.

(** C8.  [checkStorage] never throws and always returns a boolean.  When
    the base directory is accessible it returns [true] and leaves the state
    as it was.  When it is not, the outcome is that of [initializeStorage]:
    [true] when it succeeds, [false] when it fails, in the state it leaves.
    In particular [checkStorage] returns [true] in the state a successful
    [initializeStorage] leaves, whatever was there before, and it returns
    [false] exactly when the access check and the initialization both
    fail. *)
Theorem checkStorage_is_a_total_health_check
    (env : option string) (w : Fs.state) :
  (∃ ok w', checkStorage env w = (Returned ok, w'))
  ∧ (Fs.access w (STORAGE_BASE_PATH env) = Some () →
     checkStorage env w = (Returned true, w))
  ∧ (∀ w', Fs.access w (STORAGE_BASE_PATH env) = None →
           initializeStorage env w = (Returned (), w') →
           checkStorage env w = (Returned true, w'))
  ∧ (∀ w', initializeStorage env w = (Returned (), w') →
           (checkStorage env w).1 = Returned true)
  ∧ (∀ before, initializeStorage env before = (Returned (), w) →
               checkStorage env w = (Returned true, w))
  ∧ (∀ e w', Fs.access w (STORAGE_BASE_PATH env) = None →
             initializeStorage env w = (Thrown e, w') →
             checkStorage env w = (Returned false, w'))
  ∧ (∀ w', checkStorage env w = (Returned false, w') →
           Fs.access w (STORAGE_BASE_PATH env) = None
           ∧ initializeStorage env w = (Thrown StorageInitError, w')).
Proof.
  rewrite checkStorage_spec, initializeStorage_spec.
  split; [| split; [| split; [| split; [| split; [| split]]]]].
  - destruct (Fs.access w _); [eauto |].
    destruct (Fs.mkdir_recursive w _) as [[] w1]; eauto.
  - by intros ->.
  - intros w' ->. destruct (Fs.mkdir_recursive w _) as [[] w1]; [| done].
    by intros [= ->].
  - intros w'. destruct (Fs.mkdir_recursive w _) as [[] w1]; [| done].
    by destruct (Fs.access w _).
  - intros before. rewrite initializeStorage_spec.
    destruct (Fs.mkdir_recursive before _) as [[] w0] eqn:Hmk; [| done].
    intros [= ->]. rewrite (FsFacts.mkdir_recursive_idem _ _ _ Hmk).
    by destruct (Fs.access w _).
  - intros e w' ->. destruct (Fs.mkdir_recursive w _) as [[] w1]; [done |].
    by intros [= _ ->].
  - intros w'. destruct (Fs.access w _); [done |].
    destruct (Fs.mkdir_recursive w _) as [[] w1]; [done |].
    by intros [= ->].
Qed.

Lemma checkStorage_is_a_total_health_check_witness :
  checkStorage None broken_machine = (Returned false, broken_machine)
  ∧ checkStorage None fresh_machine
    = (Returned true, (initializeStorage None fresh_machine).2)
  ∧ checkStorage None one_upload = (Returned true, one_upload).
Proof.
  split; [| split].
  - destruct (checkStorage_is_a_total_health_check None broken_machine)
      as (_ & _ & _ & _ & _ & Hfalse & _).
    apply (Hfalse StorageInitError); vm_compute; reflexivity.
  - destruct (checkStorage_is_a_total_health_check None fresh_machine)
      as (_ & _ & Htrue & _).
    apply Htrue; vm_compute; reflexivity.
  - destruct (checkStorage_is_a_total_health_check None one_upload)
      as (_ & Haccess & _).
    apply Haccess. vm_compute. reflexivity.
Defined.

(** C6, as stated, fails.  The store holds the upload made at time
    1700000000000 under the name [a].  Renaming it to [a] in that same
    millisecond through the path [uploads/./1700000000000-a] succeeds and
    returns a different string, but both strings lead to the same file, so
    the old path is still found afterwards. *)
Lemma renameFile_alias_keeps_old_path :
  readFile None "uploads/./1700000000000-a" one_upload
  = (Returned hello, one_upload)
  ∧ renameFile None "uploads/./1700000000000-a" "a" 1700000000000 one_upload
    = (Returned "uploads/1700000000000-a", one_upload)
  ∧ "uploads/1700000000000-a" ≠ "uploads/./1700000000000-a"
  ∧ getFilePath None "uploads/1700000000000-a" one_upload
    = (Returned "/app/storage/uploads/1700000000000-a", one_upload)
  ∧ getFilePath None "uploads/./1700000000000-a" one_upload
    = (Returned "/app/storage/uploads/1700000000000-a", one_upload)
  ∧ getFilePath None "uploads/./1700000000000-a" one_upload
    ≠ (Thrown NotFoundError, one_upload).
Proof. vm_compute. repeat split; done. Qed.

(** C6, amended.  For every regular file stored at [oldPath] and every new
    file name, when [renameFile] succeeds and the path it returns leads to
    another place than [oldPath] does, [getFilePath] then succeeds on the
    new path and fails with [NotFoundError] on the old one. *)
Theorem renameFile_moves_the_file
    (env : option string) (oldPath newFileName : string) (now : N)
    (w w' : Fs.state) (newPath : string) :
  is_Some (Fs.readFile w (Path.join (STORAGE_BASE_PATH env) oldPath)) →
  renameFile env oldPath newFileName now w = (Returned newPath, w') →
  Fs.resolve w (Path.join (STORAGE_BASE_PATH env) newPath)
  ≠ Fs.resolve w (Path.join (STORAGE_BASE_PATH env) oldPath) →
  getFilePath env newPath w'
  = (Returned (Path.join (STORAGE_BASE_PATH env) newPath), w')
  ∧ getFilePath env oldPath w' = (Thrown NotFoundError, w').
Proof.
  intros Hfile [-> Hren]%renameFile_returned Hapart.
  destruct (moved_file_paths env _ _ w w' Hfile Hren Hapart) as [Hnew Hold].
  by rewrite !getFilePath_spec, Hnew, Hold.
Qed.

Lemma renameFile_moves_the_file_witness :
  let w' := (renameFile None "uploads/1700000000000-a" "b.pdf" 1700000000001
                        one_upload).2 in
  getFilePath None "uploads/1700000000001-b.pdf" w'
  = (Returned (Path.join (STORAGE_BASE_PATH None)
                         "uploads/1700000000001-b.pdf"), w')
  ∧ getFilePath None "uploads/1700000000000-a" w'
    = (Thrown NotFoundError, w').
Proof.
  apply (renameFile_moves_the_file
           None "uploads/1700000000000-a" "b.pdf" 1700000000001 one_upload).
  - vm_compute. eexists. reflexivity.
  - vm_compute. reflexivity.
  - vm_compute. discriminate.
Defined.

(** X17.  Two paths of the form the store hands out, [uploads/<name>], lead
    to different places as soon as they are different strings: for such an
    [oldPath] the condition of C6 on the strings is enough. *)
Lemma renameFile_moves_a_stored_file
    (env : option string) (oldName newFileName : string) (now : N)
    (w w' : Fs.state) (newPath : string) :
  Path.is_name oldName = true →
  is_Some (Fs.readFile w (Path.join (STORAGE_BASE_PATH env)
                                    ("uploads/" +:+ oldName))) →
  renameFile env ("uploads/" +:+ oldName) newFileName now w
  = (Returned newPath, w') →
  newPath ≠ "uploads/" +:+ oldName →
  getFilePath env newPath w'
  = (Returned (Path.join (STORAGE_BASE_PATH env) newPath), w')
  ∧ getFilePath env ("uploads/" +:+ oldName) w' = (Thrown NotFoundError, w').
Proof.
  intros Hold Hfile [-> Hren]%renameFile_returned Hne.
  destruct (moved_file_paths env _ _ w w' Hfile Hren) as [Hnew Hgone].
  - destruct Hfile as [data (co & Hco & _)%LocateFacts.readFile_inv].
    rewrite Hco.
    apply (LocateFacts.resolve_join_entry_apart
             w (STORAGE_BASE_PATH env) "uploads" oldName);
      [apply STORAGE_BASE_PATH_nonempty | done | done
      | apply uniqueFileName_is_name | | done].
    intros E. apply Hne. by rewrite E.
  - by rewrite !getFilePath_spec, Hnew, Hgone.
Qed.

(** C10.  The three functions join the caller's relative path to the base
    directory and act on the result, whatever it is.  With the default base
    [/app/storage], the relative path [../secret.txt] has a [..] segment and
    resolves to [/app/secret.txt], outside the base directory: when a file
    is there, [getFilePath] returns its path, [readFile] returns its
    content and [deleteFile] removes it. *)
Theorem relative_path_is_not_confined (w : Fs.state) (data : list byte) :
  Fs.readFile w "/app/secret.txt" = Some data →
  let relativePath := "../secret.txt" in
  ".." ∈ Str.split "/" relativePath
  ∧ Path.join (STORAGE_BASE_PATH None) relativePath = "/app/secret.txt"
  ∧ inside (STORAGE_BASE_PATH None) "/app/secret.txt" = false
  ∧ getFilePath None relativePath w = (Returned "/app/secret.txt", w)
  ∧ readFile None relativePath w = (Returned data, w)
  ∧ (∃ w', deleteFile None relativePath w = (Returned (), w')
           ∧ Fs.access w' "/app/secret.txt" = None)
  ∧ (∀ env anyPath w0,
       (∀ fullPath w0', getFilePath env anyPath w0 = (Returned fullPath, w0') →
                        fullPath = Path.join (STORAGE_BASE_PATH env) anyPath)
       ∧ (readFile env anyPath w0).1
         = from_option Returned (Thrown ReadError)
             (Fs.readFile w0 (Path.join (STORAGE_BASE_PATH env) anyPath))
       ∧ (deleteFile env anyPath w0).2
         = default w0 (Fs.unlink w0 (Path.join (STORAGE_BASE_PATH env) anyPath))).
Proof.
  intros Hread. cbv zeta.
  assert (Path.join (STORAGE_BASE_PATH None) "../secret.txt"
          = "/app/secret.txt") as Hjoin by (vm_compute; reflexivity).
  split; [vm_compute; set_solver |].
  split; [done |]. split; [vm_compute; reflexivity |].
  rewrite getFilePath_spec, readFile_spec, deleteFile_spec, Hjoin, Hread.
  rewrite (FsFacts.readFile_access _ _ _ Hread).
  split; [done |]. split; [done |]. split.
  - destruct (FsFacts.unlink_is_Some w "/app/secret.txt") as [_ [w' Hunlink]];
      [eauto |].
    exists w'. rewrite Hunlink. split; [done |].
    by eapply FsFacts.unlink_access.
  - intros env anyPath w0.
    rewrite getFilePath_spec, readFile_spec, deleteFile_spec.
    split; [| split; [| done]].
    + intros fullPath w0'. destruct (Fs.access w0 _); [| done]. congruence.
    + by destruct (Fs.readFile w0 _).
Qed.

Lemma relative_path_is_not_confined_witness :
  ".." ∈ Str.split "/" "../secret.txt"
  ∧ Path.join (STORAGE_BASE_PATH None) "../secret.txt" = "/app/secret.txt"
  ∧ inside (STORAGE_BASE_PATH None) "/app/secret.txt" = false
  ∧ getFilePath None "../secret.txt" with_secret
    = (Returned "/app/secret.txt", with_secret)
  ∧ readFile None "../secret.txt" with_secret = (Returned hello, with_secret)
  ∧ (∃ w', deleteFile None "../secret.txt" with_secret = (Returned (), w')
           ∧ Fs.access w' "/app/secret.txt" = None)
  ∧ (∀ env anyPath w0,
       (∀ fullPath w0', getFilePath env anyPath w0 = (Returned fullPath, w0') →
                        fullPath = Path.join (STORAGE_BASE_PATH env) anyPath)
       ∧ (readFile env anyPath w0).1
         = from_option Returned (Thrown ReadError)
             (Fs.readFile w0 (Path.join (STORAGE_BASE_PATH env) anyPath))
       ∧ (deleteFile env anyPath w0).2
         = default w0 (Fs.unlink w0 (Path.join (STORAGE_BASE_PATH env) anyPath))).
Proof.
  apply (relative_path_is_not_confined with_secret hello).
  vm_compute. reflexivity.
Defined.

(** *** [getContentType] *)

Lemma toLowerCase_app (a b : string) :
  Str.toLowerCase (a +:+ b) = Str.toLowerCase a +:+ Str.toLowerCase b.
Proof. induction a as [|c a IH]; simpl; [done | by rewrite IH]. Qed.

Lemma lower_char_dot (c : ascii) :
  bool_decide (Str.lower_char c = "."%char) = bool_decide (c = "."%char).
Proof. destruct c as [[] [] [] [] [] [] [] []]; vm_compute; reflexivity. Qed.

Lemma toLowerCase_lacks_dot (s : string) :
  Str.lacks "." (Str.toLowerCase s) = Str.lacks "." s.
Proof.
  unfold Str.lacks. induction s as [|c s IH]; simpl; [done |].
  by rewrite IH, lower_char_dot.
Qed.

Lemma pop_split_extension (sep : ascii) (stem ext : string) :
  Str.lacks sep ext = true →
  Str.pop (Str.split sep (stem +:+ String sep ext)) = Some ext.
Proof.
  intros Hext. unfold Str.pop.
  rewrite StrFacts.split_app, (StrFacts.split_lacks sep ext) by done.
  apply last_snoc.
Qed.

Lemma decide_Some_eq {B : Type} (a b : string) (x y : B) :
  (if decide (Some a = Some b) then x else y)
  = (if decide (a = b) then x else y).
Proof.
  destruct (decide (a = b)) as [-> | Hne].
  - by rewrite decide_True.
  - rewrite decide_False; [done | congruence].
Qed.

Lemma getContentType_of_popped (fileName ext : string) :
  Str.pop (Str.split "." (Str.toLowerCase fileName)) = Some ext →
  getContentType fileName = mime_of_extension ext.
Proof.
  intros Hext. unfold getContentType, mime_of_extension.
  rewrite Hext, !decide_Some_eq.
  destruct (decide (ext = "pdf")); [done |].
  destruct (decide (ext = "png")); [done |].
  destruct (decide (ext = "jpg")); [by rewrite decide_True by tauto |].
  destruct (decide (ext = "jpeg")); [by rewrite decide_True by tauto |].
  rewrite (decide_False (P := ext = "jpg" ∨ ext = "jpeg")) by tauto.
  destruct (decide (ext = "tiff")); [by rewrite decide_True by tauto |].
  destruct (decide (ext = "tif")); [by rewrite decide_True by tauto |].
  by rewrite decide_False by tauto.
Qed.

(** The type is that of the lower-cased extension: the comparison does not
    look at the case, and every other extension gets the default. *)
Lemma getContentType_extension (fileName ext : string) :
  has_extension fileName ext →
  getContentType fileName = mime_of_extension (Str.toLowerCase ext).
Proof.
  intros (stem & -> & Hext). apply getContentType_of_popped.
  rewrite toLowerCase_app.
  change (Str.toLowerCase ("." +:+ ext))
    with (String "." (Str.toLowerCase ext)).
  apply pop_split_extension. by rewrite toLowerCase_lacks_dot.
Qed.

(** A name without a dot is taken whole as its own extension. *)
Lemma getContentType_no_extension (fileName : string) :
  has_no_extension fileName →
  getContentType fileName = mime_of_extension (Str.toLowerCase fileName).
Proof.
  intros Hnone. apply getContentType_of_popped.
  rewrite StrFacts.split_lacks by by rewrite toLowerCase_lacks_dot.
  done.
Qed.

Lemma mime_of_extension_default (ext : string) :
  ext ∉ ["pdf"; "png"; "jpg"; "jpeg"; "tiff"; "tif"] →
  mime_of_extension ext = "application/octet-stream".
Proof.
  intros Hext. unfold mime_of_extension.
  rewrite !decide_False; [done | | | |];
    intros Hin; apply Hext; rewrite !elem_of_cons; tauto.
Qed.

(** The part of C2 that holds: the six known extensions, in any case, and
    the default for every other extension. *)
Lemma getContentType_recognizes_extensions (fileName ext : string) :
  has_extension fileName ext →
  (Str.toLowerCase ext = "pdf" → getContentType fileName = "application/pdf")
  ∧ (Str.toLowerCase ext = "png" → getContentType fileName = "image/png")
  ∧ (Str.toLowerCase ext = "jpg" ∨ Str.toLowerCase ext = "jpeg" →
     getContentType fileName = "image/jpeg")
  ∧ (Str.toLowerCase ext = "tiff" ∨ Str.toLowerCase ext = "tif" →
     getContentType fileName = "image/tiff")
  ∧ (Str.toLowerCase ext ∉ ["pdf"; "png"; "jpg"; "jpeg"; "tiff"; "tif"] →
     getContentType fileName = "application/octet-stream").
Proof.
  intros Hext. rewrite (getContentType_extension _ _ Hext).
  repeat split.
  - by intros ->.
  - by intros ->.
  - by intros [-> | ->].
  - by intros [-> | ->].
  - apply mime_of_extension_default.
Qed.

(** C2 does not hold on names without an extension.  The name [pdf] has no
    dot, hence no extension, and the claim gives it the default type; the
    code takes the whole name for the extension and answers
    [application/pdf].  The same happens for the other five known
    extensions, in any case. *)
Theorem getContentType_bare_name_is_taken_for_an_extension :
  has_no_extension "pdf"
  ∧ getContentType "pdf" = "application/pdf"
  ∧ getContentType "pdf" ≠ "application/octet-stream"
  ∧ (∀ fileName,
       has_no_extension fileName →
       Str.toLowerCase fileName ∈ ["pdf"; "png"; "jpg"; "jpeg"; "tiff"; "tif"] →
       getContentType fileName ≠ "application/octet-stream").
Proof.
  split; [done |]. split; [vm_compute; reflexivity |].
  split; [vm_compute; discriminate |].
  intros fileName Hnone Hknown.
  rewrite (getContentType_no_extension _ Hnone).
  repeat (apply elem_of_cons in Hknown as [-> | Hknown]; [done |]).
  by apply elem_of_nil in Hknown.
Qed.

(* ===================================================================== *)
(** ** Scenarios *)
(* ===================================================================== *)

(** The scenario of the specification: [hello] uploaded as [report 1.pdf]. *)
Example scenario_upload :
  (uploadFile None hello "report 1.pdf" 1700000000000 fresh_machine).1
  = Returned "uploads/1700000000000-report_1.pdf".
Proof. vm_compute. reflexivity. Qed.

Example scenario_content_type : getContentType "report 1.pdf" = "application/pdf".
Proof. vm_compute. reflexivity. Qed.

Example scenario_upper_case : getContentType "IMG.PNG" = "image/png".
Proof. vm_compute. reflexivity. Qed.

Example scenario_unknown_extension :
  getContentType "notes.txt" = "application/octet-stream"
  ∧ getContentType "README" = "application/octet-stream"
  ∧ getContentType "archive." = "application/octet-stream".
Proof. vm_compute. repeat split. Qed.

(** [/app] is a regular file: nothing can be stored. *)
Example scenario_broken_machine :
  uploadFile None hello "a" 1700000000000 broken_machine
  = (Thrown UploadError, broken_machine)
  ∧ initializeStorage None broken_machine
    = (Thrown StorageInitError, broken_machine)
  ∧ checkStorage None broken_machine = (Returned false, broken_machine).
Proof. vm_compute. repeat split. Qed.

(** A base directory whose name does not fit: [initializeStorage] makes
    [/data], fails at the name of 256 letters and leaves [/data] behind, and
    [checkStorage] answers [false] in that state. *)
Example scenario_long_base :
  let env := Some ("/data/" +:+ letters 256) in
  (initializeStorage env empty_machine).1 = Thrown StorageInitError
  ∧ Fs.access empty_machine "/data" = None
  ∧ Fs.access (initializeStorage env empty_machine).2 "/data" = Some ()
  ∧ (checkStorage env empty_machine).1 = Returned false
  ∧ (checkStorage env empty_machine).2 = (initializeStorage env empty_machine).2
  ∧ (uploadFile env hello "a" 5 empty_machine).1 = Thrown UploadError.
Proof. vm_compute. repeat split. Qed.

(** A name that is too long for [renameFile]: the call fails and the file
    stays where it was. *)
Example scenario_rename_long_name :
  renameFile None "uploads/1700000000000-a" long_name 1700000000001 one_upload
  = (Thrown RenameError, one_upload)
  ∧ (renameFile None "uploads/1700000000000-a" (letters 241) 1700000000001
                one_upload).1
    = Returned (stored_relative_path 1700000000001 (letters 241)).
Proof. vm_compute. repeat split. Qed.

(** [checkStorage] creates the directories that are missing. *)
Example scenario_check_creates :
  Fs.access fresh_machine "/app/storage" = None
  ∧ (checkStorage None fresh_machine).1 = Returned true
  ∧ Fs.access (checkStorage None fresh_machine).2 "/app/storage/uploads"
    = Some ().
Proof. vm_compute. repeat split. Qed.

(** After [initializeStorage] on a machine without the base directory. *)
Example scenario_initialize_then_check :
  let w := (initializeStorage None fresh_machine).2 in
  initializeStorage None fresh_machine = (Returned (), w)
  ∧ checkStorage None w = (Returned true, w).
Proof. vm_compute. repeat split. Qed.

(** The sanitized name keeps the length and the admitted characters. *)
Example scenario_sanitize :
  Str.replace_not_in_class "My File (v2)_final-1.PDF" = "My_File__v2__final-1.PDF".
Proof. vm_compute. reflexivity. Qed.

(** [renameFile] does not create the uploads directory. *)
Example scenario_rename_without_uploads :
  let w := Fs.State {[ "app" := Fs.Dir {[ "storage" :=
                         Fs.Dir {[ "old.txt" := Fs.File hello ]} ]} ]} [] in
  readFile None "old.txt" w = (Returned hello, w)
  ∧ renameFile None "old.txt" "new.txt" 1700000000000 w
    = (Thrown RenameError, w).
Proof. vm_compute. repeat split. Qed.

Example scenario_rename_missing :
  renameFile None "uploads/1700000000000-b" "c" 1700000000001 one_upload
  = (Thrown RenameError, one_upload).
Proof. vm_compute. reflexivity. Qed.

Example scenario_delete :
  deleteFile None "uploads/nothing" one_upload = (Returned (), one_upload)
  ∧ Fs.access (deleteFile None "uploads/1700000000000-a" one_upload).2
              "/app/storage/uploads/1700000000000-a" = None.
Proof. vm_compute. repeat split. Qed.

(** A relative base directory is resolved from the working directory. *)
Example scenario_relative_base :
  let w := Fs.State {[ "srv" := Fs.Dir ∅ ]} ["srv"] in
  let w' := (uploadFile (Some "./data") hello "a b" 5 w).2 in
  (uploadFile (Some "./data") hello "a b" 5 w).1 = Returned "uploads/5-a_b"
  ∧ Fs.readFile w' "/srv/data/uploads/5-a_b" = Some hello
  ∧ readFile (Some "./data") "uploads/5-a_b" w' = (Returned hello, w').
Proof. vm_compute. repeat split. Qed.

(* ===================================================================== *)
(** ** Further properties of the exported functions *)
(* ===================================================================== *)

(** X1.  When [initializeStorage] returns, the uploads folder is a
    directory, a second call returns as well and changes nothing, and every
    file that could be read before can still be read, with the same
    content. *)
Theorem initializeStorage_makes_the_uploads_folder
    (env : option string) (w w' : Fs.state) :
  initializeStorage env w = (Returned (), w') →
  Fs.is_directory w' (UPLOADS_FOLDER env) = true
  ∧ initializeStorage env w' = (Returned (), w')
  ∧ (∀ path data,
       Fs.readFile w path = Some data → Fs.readFile w' path = Some data).
Proof.
  rewrite !initializeStorage_spec.
  destruct (Fs.mkdir_recursive w _) as [[] w1] eqn:Hmk; [| done].
  intros [= <-]. split; [by eapply FrameFacts.mkdir_recursive_is_directory |].
  split; [by rewrite (FsFacts.mkdir_recursive_idem _ _ _ Hmk) |].
  intros path data. by eapply FrameFacts.mkdir_recursive_readFile.
Qed.

Lemma initializeStorage_makes_the_uploads_folder_witness :
  let w' := (initializeStorage None no_uploads_folder).2 in
  Fs.is_directory w' (UPLOADS_FOLDER None) = true
  ∧ initializeStorage None w' = (Returned (), w')
  ∧ (∀ path data,
       Fs.readFile no_uploads_folder path = Some data →
       Fs.readFile w' path = Some data).
Proof.
  apply (initializeStorage_makes_the_uploads_folder None no_uploads_folder).
  vm_compute. reflexivity.
Defined.



(** X3.  Whatever the file name, the relative path [uploadFile] or
    [renameFile] returns is [uploads/<name>] for a single path component
    [<name>], and the full path the store derives from it is the uploads
    folder, a slash and [<name>]: the file lies directly in the uploads
    folder. *)
Theorem stored_file_lies_in_the_uploads_folder
    (env : option string) (fileName : string) (now : N)
    (w w' : Fs.state) (relativePath : string) :
  (∃ buffer, uploadFile env buffer fileName now w = (Returned relativePath, w'))
  ∨ (∃ oldPath, renameFile env oldPath fileName now w
                = (Returned relativePath, w')) →
  ∃ name,
    Path.is_name name = true
    ∧ relativePath = "uploads/" +:+ name
    ∧ Path.join (STORAGE_BASE_PATH env) relativePath
      = UPLOADS_FOLDER env +:+ "/" +:+ name
    ∧ inside (UPLOADS_FOLDER env)
             (Path.join (STORAGE_BASE_PATH env) relativePath) = true.
Proof.
  intros Hreturned.
  assert (relativePath = "uploads/" +:+ Str.of_number now +:+ "-"
                         +:+ Str.replace_not_in_class fileName) as ->.
  { destruct Hreturned as [[buffer Hup] | [oldPath Hren]].
    - by apply uploadFile_returned in Hup as [-> _].
    - by apply renameFile_returned in Hren as [-> _]. }
  exists (Str.of_number now +:+ "-" +:+ Str.replace_not_in_class fileName).
  pose proof (uniqueFileName_is_name now fileName) as Hname.
  pose proof (NameFacts.join_uploads_name (STORAGE_BASE_PATH env) _
                (STORAGE_BASE_PATH_nonempty env) Hname) as Hjoin.
  split; [done |]. split; [done |]. split; [exact Hjoin |].
  rewrite Hjoin. apply NameFacts.inside_folder.
Qed.

Lemma stored_file_lies_in_the_uploads_folder_witness :
  ∃ name,
    Path.is_name name = true
    ∧ "uploads/1700000000000-.._.._etc_passwd" = "uploads/" +:+ name
    ∧ Path.join (STORAGE_BASE_PATH None) "uploads/1700000000000-.._.._etc_passwd"
      = UPLOADS_FOLDER None +:+ "/" +:+ name
    ∧ inside (UPLOADS_FOLDER None)
             (Path.join (STORAGE_BASE_PATH None)
                        "uploads/1700000000000-.._.._etc_passwd") = true.
Proof.
  apply (stored_file_lies_in_the_uploads_folder
           None "../../etc/passwd" 1700000000000 fresh_machine
           (uploadFile None hello "../../etc/passwd" 1700000000000
                       fresh_machine).2).
  left. exists hello. vm_compute. reflexivity.
Defined.

(** X4.  An upload leaves the other files alone: a file that could be read
    before the call, under a relative path that leads elsewhere than the new
    file, is read with the same content after it. *)
Theorem uploadFile_keeps_the_other_files
    (env : option string) (buffer : list byte) (fileName : string) (now : N)
    (w w' : Fs.state) (relativePath other : string) (data : list byte) :
  uploadFile env buffer fileName now w = (Returned relativePath, w') →
  readFile env other w = (Returned data, w) →
  Fs.resolve w' (Path.join (STORAGE_BASE_PATH env) other)
  ≠ Fs.resolve w' (Path.join (STORAGE_BASE_PATH env) relativePath) →
  readFile env other w' = (Returned data, w').
Proof.
  intros (_ & w1 & Hmk & Hwrite)%uploadFile_returned.
  rewrite !readFile_spec.
  destruct (Fs.readFile w _) as [d |] eqn:Hread; [| done].
  intros [= ->] Hapart.
  rewrite !(FrameFacts.writeFile_resolve _ _ _ _ _ Hwrite) in Hapart.
  apply (FrameFacts.mkdir_recursive_readFile _ _ _ _ _ _ Hmk) in Hread.
  by rewrite (FrameFacts.writeFile_frame _ _ _ _ _ _ Hwrite Hapart Hread).
Qed.

Lemma uploadFile_keeps_the_other_files_witness :
  let w' := (uploadFile None [] "b" 1700000000001 one_upload).2 in
  readFile None "uploads/1700000000000-a" w' = (Returned hello, w').
Proof.
  apply (uploadFile_keeps_the_other_files
           None [] "b" 1700000000001 one_upload _ "uploads/1700000000001-b").
  - vm_compute. reflexivity.
  - vm_compute. reflexivity.
  - vm_compute. discriminate.
Defined.

(** X5.  Two uploads get the same relative path exactly when they read the
    same clock value and their file names are the same once sanitized:
    the timestamp and the sanitized name can be read back from the path. *)
Theorem stored_paths_coincide_exactly_when
    (env : option string) (buffer1 buffer2 : list byte)
    (fileName1 fileName2 : string) (now1 now2 : N)
    (w1 w1' w2 w2' : Fs.state) (path1 path2 : string) :
  uploadFile env buffer1 fileName1 now1 w1 = (Returned path1, w1') →
  uploadFile env buffer2 fileName2 now2 w2 = (Returned path2, w2') →
  path1 = path2
  ↔ now1 = now2
    ∧ Str.replace_not_in_class fileName1 = Str.replace_not_in_class fileName2.
Proof.
  intros [-> _]%uploadFile_returned [-> _]%uploadFile_returned. split.
  - intros E. apply (inj (String.append "uploads/")) in E.
    apply NameFacts.digits_dash_inj in E as [En Es];
      [| apply StrFacts.of_number_digits | apply StrFacts.of_number_digits].
    split; [by apply NameFacts.of_number_inj | done].
  - by intros [-> ->].
Qed.

Lemma stored_paths_coincide_exactly_when_witness :
  "uploads/5-a_b" = "uploads/5-a_b"
  ↔ 5%N = 5%N
    ∧ Str.replace_not_in_class "a b" = Str.replace_not_in_class "a/b".
Proof.
  apply (stored_paths_coincide_exactly_when
           None hello [] "a b" "a/b" 5 5
           fresh_machine (uploadFile None hello "a b" 5 fresh_machine).2
           fresh_machine (uploadFile None [] "a/b" 5 fresh_machine).2);
    vm_compute; reflexivity.
Defined.

(** X6.  Nothing guards against a collision.  When a second upload reads
    the same clock value as a first one and its name sanitizes to the same
    string, it returns the same relative path and its bytes replace those of
    the first upload. *)
Theorem colliding_upload_replaces_the_content
    (env : option string) (buffer1 buffer2 : list byte)
    (fileName1 fileName2 : string) (now : N)
    (w w1 w2 : Fs.state) (path1 path2 : string) :
  uploadFile env buffer1 fileName1 now w = (Returned path1, w1) →
  uploadFile env buffer2 fileName2 now w1 = (Returned path2, w2) →
  Str.replace_not_in_class fileName1 = Str.replace_not_in_class fileName2 →
  path2 = path1
  ∧ readFile env path1 w1 = (Returned buffer1, w1)
  ∧ readFile env path1 w2 = (Returned buffer2, w2).
Proof.
  intros (-> & wa & _ & Hwrite1)%uploadFile_returned
         (-> & wb & _ & Hwrite2)%uploadFile_returned Hsame.
  rewrite Hsame in *. split; [done |]. rewrite !readFile_spec.
  destruct (FsFacts.writeFile_readFile _ _ _ _ Hwrite1) as [_ ->].
  by destruct (FsFacts.writeFile_readFile _ _ _ _ Hwrite2) as [_ ->].
Qed.

Lemma colliding_upload_replaces_the_content_witness :
  let w1 := (uploadFile None hello "a b" 5 fresh_machine).2 in
  let w2 := (uploadFile None [] "a/b" 5 w1).2 in
  "uploads/5-a_b" = "uploads/5-a_b"
  ∧ readFile None "uploads/5-a_b" w1 = (Returned hello, w1)
  ∧ readFile None "uploads/5-a_b" w2 = (Returned [], w2).
Proof.
  apply (colliding_upload_replaces_the_content
           None hello [] "a b" "a/b" 5 fresh_machine);
    vm_compute; reflexivity.
Defined.



(** X8.  [deleteFile] leaves the other files alone: a file that could be
    read before the call, under a relative path that leads elsewhere than
    the deleted one, is read with the same content after it. *)
Theorem deleteFile_keeps_the_other_files
    (env : option string) (relativePath other : string) (w : Fs.state)
    (data : list byte) :
  readFile env other w = (Returned data, w) →
  Fs.resolve w (Path.join (STORAGE_BASE_PATH env) other)
  ≠ Fs.resolve w (Path.join (STORAGE_BASE_PATH env) relativePath) →
  readFile env other (deleteFile env relativePath w).2
  = (Returned data, (deleteFile env relativePath w).2).
Proof.
  rewrite deleteFile_spec, !readFile_spec. simpl.
  destruct (Fs.readFile w _) as [d |] eqn:Hread; [| done].
  intros [= ->] Hapart.
  destruct (Fs.unlink w _) as [w' |] eqn:Hunlink; simpl.
  - by rewrite (FrameFacts.unlink_frame _ _ _ _ _ Hunlink Hapart Hread).
  - by rewrite Hread.
Qed.

Lemma deleteFile_keeps_the_other_files_witness :
  readFile None "../secret.txt"
           (deleteFile None "uploads/1700000000000-a"
              (uploadFile None hello "a" 1700000000000 with_secret).2).2
  = (Returned hello,
     (deleteFile None "uploads/1700000000000-a"
        (uploadFile None hello "a" 1700000000000 with_secret).2).2).
Proof.
  apply (deleteFile_keeps_the_other_files
           None "uploads/1700000000000-a" "../secret.txt"
           (uploadFile None hello "a" 1700000000000 with_secret).2 hello).
  - vm_compute. reflexivity.
  - vm_compute. discriminate.
Defined.

(** X9.  A successful [renameFile] of a file that can be read carries its
    bytes along: [readFile] on the returned path gives the content the file
    had, whatever was at the new place before; and the files under paths
    that lead neither to the old nor to the new place are read as before. *)
Theorem renameFile_carries_the_content
    (env : option string) (oldPath newFileName : string) (now : N)
    (w w' : Fs.state) (newPath : string) (data : list byte) :
  readFile env oldPath w = (Returned data, w) →
  renameFile env oldPath newFileName now w = (Returned newPath, w') →
  readFile env newPath w' = (Returned data, w')
  ∧ (∀ other d,
       readFile env other w = (Returned d, w) →
       Fs.resolve w (Path.join (STORAGE_BASE_PATH env) other)
       ≠ Fs.resolve w (Path.join (STORAGE_BASE_PATH env) oldPath) →
       Fs.resolve w (Path.join (STORAGE_BASE_PATH env) other)
       ≠ Fs.resolve w (Path.join (STORAGE_BASE_PATH env) newPath) →
       readFile env other w' = (Returned d, w')).
Proof.
  rewrite readFile_spec.
  destruct (Fs.readFile w _) as [d0 |] eqn:Hread; [| done].
  intros [= ->] [-> Hren]%renameFile_returned.
  destruct (FrameFacts.rename_file_content _ _ _ _ _ Hread Hren)
    as [Hnew Hframe].
  split; [by rewrite readFile_spec, Hnew |].
  intros other d. rewrite !readFile_spec.
  destruct (Fs.readFile w (Path.join _ other)) as [d1 |] eqn:Hother; [| done].
  intros [= ->] Ho Hn. by rewrite (Hframe _ d Ho Hn Hother).
Qed.

Lemma renameFile_carries_the_content_witness :
  let w' := (renameFile None "uploads/1700000000000-a" "b.pdf" 1700000000001
                        one_upload).2 in
  readFile None "uploads/1700000000001-b.pdf" w' = (Returned hello, w')
  ∧ (∀ other d,
       readFile None other one_upload = (Returned d, one_upload) →
       Fs.resolve one_upload (Path.join (STORAGE_BASE_PATH None) other)
       ≠ Fs.resolve one_upload (Path.join (STORAGE_BASE_PATH None)
                                          "uploads/1700000000000-a") →
       Fs.resolve one_upload (Path.join (STORAGE_BASE_PATH None) other)
       ≠ Fs.resolve one_upload (Path.join (STORAGE_BASE_PATH None)
                                          "uploads/1700000000001-b.pdf") →
       readFile None other w' = (Returned d, w')).
Proof.
  apply (renameFile_carries_the_content
           None "uploads/1700000000000-a" "b.pdf" 1700000000001 one_upload).
  - vm_compute. reflexivity.
  - vm_compute. reflexivity.
Defined.

(** X10.  Unlike [uploadFile], [renameFile] does not create the uploads
    folder: when the folder is not there as a directory, every call fails
    with [RenameError] and changes nothing, even if the old path leads to a
    file. *)
Theorem renameFile_needs_the_uploads_folder
    (env : option string) (oldPath newFileName : string) (now : N)
    (w : Fs.state) :
  Fs.is_directory w (UPLOADS_FOLDER env) = false →
  renameFile env oldPath newFileName now w = (Thrown RenameError, w).
Proof.
  pose proof (STORAGE_BASE_PATH_nonempty env) as Hbase.
  pose proof (uniqueFileName_is_name now newFileName) as Hname.
  intros Hmissing. rewrite renameFile_spec. cbv zeta.
  assert (Fs.resolve w (Path.join (STORAGE_BASE_PATH env)
            ("uploads/" +:+ Str.of_number now +:+ "-"
             +:+ Str.replace_not_in_class newFileName)) = None) as Hnew.
  { rewrite (NameFacts.join_uploads_name _ _ Hbase Hname).
    fold (UPLOADS_FOLDER env). unfold Fs.is_directory in Hmissing.
    destruct (Fs.resolve w (UPLOADS_FOLDER env)) as [d |] eqn:Hd.
    - rewrite (LocateFacts.resolve_entry _ _ _ d Hd Hname), Hmissing.
      by rewrite andb_false_r.
    - apply LocateFacts.resolve_entry_None;
        [apply UPLOADS_FOLDER_nonempty | done]. }
  unfold Fs.rename. rewrite Hnew.
  by destruct (Fs.resolve w (Path.join (STORAGE_BASE_PATH env) oldPath)).
Qed.

Lemma renameFile_needs_the_uploads_folder_witness :
  readFile None "old.txt" no_uploads_folder = (Returned hello, no_uploads_folder)
  ∧ renameFile None "old.txt" "new.txt" 1700000000000 no_uploads_folder
    = (Thrown RenameError, no_uploads_folder).
Proof.
  split; [vm_compute; reflexivity |].
  apply (renameFile_needs_the_uploads_folder
           None "old.txt" "new.txt" 1700000000000 no_uploads_folder).
  vm_compute. reflexivity.
Defined.

(** X11.  [getFilePath] checks that something is at the path, not that it
    is a file: on a relative path that leads to a directory, such as
    [uploads] or the empty path, it returns the full path, while [readFile]
    fails with [ReadError] and [deleteFile] returns without removing
    anything. *)
Theorem getFilePath_accepts_directories
    (env : option string) (relativePath : string) (w : Fs.state) :
  Fs.is_directory w (Path.join (STORAGE_BASE_PATH env) relativePath) = true →
  getFilePath env relativePath w
  = (Returned (Path.join (STORAGE_BASE_PATH env) relativePath), w)
  ∧ readFile env relativePath w = (Thrown ReadError, w)
  ∧ deleteFile env relativePath w = (Returned (), w).
Proof.
  intros (Haccess & Hread & Hunlink)%FrameFacts.is_directory_calls.
  by rewrite getFilePath_spec, readFile_spec, deleteFile_spec,
             Haccess, Hread, Hunlink.
Qed.

Lemma getFilePath_accepts_directories_witness :
  (getFilePath None "uploads" one_upload
   = (Returned (Path.join (STORAGE_BASE_PATH None) "uploads"), one_upload)
   ∧ readFile None "uploads" one_upload = (Thrown ReadError, one_upload)
   ∧ deleteFile None "uploads" one_upload = (Returned (), one_upload))
  ∧ (getFilePath None "" one_upload
     = (Returned (Path.join (STORAGE_BASE_PATH None) ""), one_upload)
     ∧ readFile None "" one_upload = (Thrown ReadError, one_upload)
     ∧ deleteFile None "" one_upload = (Returned (), one_upload)).
Proof.
  split.
  - apply (getFilePath_accepts_directories None "uploads" one_upload).
    vm_compute. reflexivity.
  - apply (getFilePath_accepts_directories None "" one_upload).
    vm_compute. reflexivity.
Defined.

(** X12.  Upload, rename, delete.  After an upload, a [renameFile] of the
    returned path that returns a different path makes the uploaded bytes
    readable under the new path and the old path fail with [NotFoundError];
    a [deleteFile] of the new path then makes it fail as well. *)
Theorem upload_rename_delete
    (env : option string) (buffer : list byte) (fileName newFileName : string)
    (now1 now2 : N) (w w1 w2 : Fs.state) (path1 path2 : string) :
  uploadFile env buffer fileName now1 w = (Returned path1, w1) →
  renameFile env path1 newFileName now2 w1 = (Returned path2, w2) →
  path2 ≠ path1 →
  readFile env path2 w2 = (Returned buffer, w2)
  ∧ getFilePath env path1 w2 = (Thrown NotFoundError, w2)
  ∧ ∃ w3, deleteFile env path2 w2 = (Returned (), w3)
          ∧ getFilePath env path2 w3 = (Thrown NotFoundError, w3)
          ∧ getFilePath env path1 w3 = (Thrown NotFoundError, w3).
Proof.
  intros (-> & wa & _ & Hwrite)%uploadFile_returned
         [-> Hren]%renameFile_returned Hne.
  destruct (FsFacts.writeFile_readFile _ _ _ _ Hwrite) as [_ Hread].
  destruct (FrameFacts.rename_file_content _ _ _ _ _ Hread Hren)
    as [Hnew _].
  assert (Fs.resolve w1 (Path.join (STORAGE_BASE_PATH env)
            ("uploads/" +:+ Str.of_number now2 +:+ "-"
             +:+ Str.replace_not_in_class newFileName))
          ≠ Fs.resolve w1 (Path.join (STORAGE_BASE_PATH env)
            ("uploads/" +:+ Str.of_number now1 +:+ "-"
             +:+ Str.replace_not_in_class fileName))) as Hapart.
  { destruct (LocateFacts.readFile_inv _ _ _ Hread) as (co & Hco & _).
    rewrite Hco.
    apply (LocateFacts.resolve_join_entry_apart
             w1 (STORAGE_BASE_PATH env) "uploads"
             (Str.of_number now1 +:+ "-" +:+ Str.replace_not_in_class fileName));
      [apply STORAGE_BASE_PATH_nonempty | done | apply uniqueFileName_is_name
      | apply uniqueFileName_is_name | | done].
    intros E. apply Hne. by rewrite E. }
  destruct (λ Hfile, moved_file_paths env _ _ w1 w2 Hfile Hren Hapart)
    as [_ Hold]; [eauto |].
  split; [by rewrite readFile_spec, Hnew |].
  split; [by rewrite getFilePath_spec, Hold |].
  destruct (FsFacts.unlink_is_Some w2 (Path.join (STORAGE_BASE_PATH env)
              ("uploads/" +:+ Str.of_number now2 +:+ "-"
               +:+ Str.replace_not_in_class newFileName)))
    as [_ [w3 Hunlink]]; [eauto |].
  exists w3. rewrite deleteFile_spec, !getFilePath_spec, Hunlink.
  rewrite (FsFacts.unlink_access _ _ _ Hunlink).
  split; [done |]. split; [done |].
  by rewrite (FrameFacts.unlink_access_None _ _ _ _ Hunlink Hold).
Qed.

Lemma upload_rename_delete_witness :
  let w1 := (uploadFile None hello "report 1.pdf" 1700000000000
                        fresh_machine).2 in
  let w2 := (renameFile None "uploads/1700000000000-report_1.pdf"
                        "final.pdf" 1700000000009 w1).2 in
  readFile None "uploads/1700000000009-final.pdf" w2 = (Returned hello, w2)
  ∧ getFilePath None "uploads/1700000000000-report_1.pdf" w2
    = (Thrown NotFoundError, w2)
  ∧ ∃ w3, deleteFile None "uploads/1700000000009-final.pdf" w2
          = (Returned (), w3)
          ∧ getFilePath None "uploads/1700000000009-final.pdf" w3
            = (Thrown NotFoundError, w3)
          ∧ getFilePath None "uploads/1700000000000-report_1.pdf" w3
            = (Thrown NotFoundError, w3).
Proof.
  apply (upload_rename_delete
           None hello "report 1.pdf" "final.pdf" 1700000000000 1700000000009
           fresh_machine
           (uploadFile None hello "report 1.pdf" 1700000000000
                       fresh_machine).2 _
           "uploads/1700000000000-report_1.pdf").
  - vm_compute. reflexivity.
  - vm_compute. reflexivity.
  - vm_compute. discriminate.
Defined.

(** *** Names, sanitized names and content types *)

Lemma all_chars_get (p : ascii → bool) (s : string) :
  Str.all_chars p s = true ↔ ∀ i c, String.get i s = Some c → p c = true.
Proof.
  induction s as [|x s IH]; simpl.
  - split; [by intros _ [|i] c | done].
  - rewrite andb_true_iff, IH. split.
    + intros [Hx Hs] [|i] c; [by intros [= <-] | apply Hs].
    + intros Hall. split; [by apply (Hall 0) |].
      intros i c. apply (Hall (S i)).
Qed.

(** X13.  Sanitizing is stable.  A sanitized name is made of the characters
    of [a-zA-Z0-9.-] and underscores, sanitizing it again changes nothing,
    so that an upload under the sanitized name gets the path an upload under
    the original name gets; and a name made of characters of the class is
    stored as it is. *)
Theorem sanitizing_is_stable
    (env : option string) (fileName : string) (now : N) :
  let sanitized := Str.replace_not_in_class fileName in
  Str.replace_not_in_class sanitized = sanitized
  ∧ (∀ i c, String.get i sanitized = Some c →
            allowed_character c ∨ c = "_"%char)
  ∧ (∀ buffer w relativePath w',
       uploadFile env buffer sanitized now w = (Returned relativePath, w') →
       relativePath = stored_relative_path now fileName)
  ∧ ((∀ i c, String.get i fileName = Some c → allowed_character c) →
     sanitized = fileName).
Proof.
  cbv zeta. split; [apply NameFacts.replace_idempotent |]. split; [| split].
  - intros i c Hget.
    pose proof (NameFacts.replace_alphabet fileName) as Hall.
    rewrite all_chars_get in Hall. specialize (Hall i c Hget).
    apply orb_true_iff in Hall as [Hc | Hc].
    + left. by apply StrFacts.in_class_allowed.
    + right. by apply bool_decide_eq_true in Hc.
  - intros buffer w relativePath w' [-> _]%uploadFile_returned.
    unfold stored_relative_path. by rewrite NameFacts.replace_idempotent.
  - intros Hall. apply NameFacts.replace_in_class, all_chars_get.
    intros i c Hget. by apply StrFacts.in_class_allowed, (Hall i).
Qed.

Lemma lower_char_sanitized (c : ascii) :
  let c' := if Str.in_class c then c else "_"%char in
  is_lower_letter (Str.lower_char c') = is_lower_letter (Str.lower_char c)
  ∧ (is_lower_letter (Str.lower_char c) = true →
     Str.lower_char c' = Str.lower_char c)
  ∧ (bool_decide (c' = "."%char) = bool_decide (c = "."%char)).
Proof.
  destruct c as [[] [] [] [] [] [] [] []]; vm_compute;
    (split; [reflexivity | split; [| reflexivity]]);
    first [reflexivity | discriminate | intros _; reflexivity].
Qed.

Lemma replace_lacks_dot (s : string) :
  Str.lacks "." (Str.replace_not_in_class s) = Str.lacks "." s.
Proof.
  unfold Str.lacks. induction s as [|c s IH]; simpl; [done |].
  destruct (lower_char_sanitized c) as (_ & _ & Hdot). cbv zeta in Hdot.
  by rewrite IH, Hdot.
Qed.

(** Lower-casing a sanitized name and lower-casing the name give the same
    word whenever either is made of the letters [a] to [z]. *)
Lemma toLowerCase_sanitized (s : string) :
  Str.all_chars is_lower_letter
    (Str.toLowerCase (Str.replace_not_in_class s))
  = Str.all_chars is_lower_letter (Str.toLowerCase s)
  ∧ (Str.all_chars is_lower_letter (Str.toLowerCase s) = true →
     Str.toLowerCase (Str.replace_not_in_class s) = Str.toLowerCase s).
Proof.
  induction s as [|c s [IH1 IH2]]; simpl; [done |].
  destruct (lower_char_sanitized c) as (H1 & H2 & _). cbv zeta in H1, H2.
  split; [by rewrite H1, IH1 |].
  rewrite andb_true_iff. intros [Hc Hs]. by rewrite H2, IH2.
Qed.

Lemma mime_of_extension_letters (ext : string) :
  Str.all_chars is_lower_letter ext = false →
  mime_of_extension ext = "application/octet-stream".
Proof.
  intros Hext. apply mime_of_extension_default.
  rewrite !elem_of_cons, elem_of_nil.
  intros [-> | [-> | [-> | [-> | [-> | [-> | []]]]]]]; done.
Qed.

(** X14.  For a file name with an extension, the content type read from the
    relative path of the stored file is the content type read from the file
    name: sanitizing and prefixing do not change it. *)
Theorem getContentType_of_the_stored_path
    (env : option string) (buffer : list byte) (fileName ext : string)
    (now : N) (w w' : Fs.state) (relativePath : string) :
  has_extension fileName ext →
  uploadFile env buffer fileName now w = (Returned relativePath, w') →
  getContentType relativePath = getContentType fileName.
Proof.
  intros Hext [-> _]%uploadFile_returned.
  rewrite (getContentType_extension _ _ Hext).
  destruct Hext as (stem & -> & Hlack).
  rewrite (getContentType_extension _ (Str.replace_not_in_class ext)).
  - destruct (toLowerCase_sanitized ext) as [Hsame Hword].
    destruct (Str.all_chars is_lower_letter (Str.toLowerCase ext)) eqn:Hletters.
    + by rewrite Hword.
    + by rewrite !mime_of_extension_letters.
  - exists ("uploads/" +:+ Str.of_number now +:+ "-"
            +:+ Str.replace_not_in_class stem).
    split; [| by rewrite replace_lacks_dot].
    rewrite NameFacts.replace_app.
    change (Str.replace_not_in_class ("." +:+ ext))
      with ("." +:+ Str.replace_not_in_class ext).
    by rewrite !StrFacts.append_assoc.
Qed.

Lemma getContentType_of_the_stored_path_witness :
  getContentType "uploads/1700000000000-Scan__1_.final.JPeG"
  = getContentType "Scan (1).final.JPeG".
Proof.
  apply (getContentType_of_the_stored_path
           None hello "Scan (1).final.JPeG" "JPeG" 1700000000000 fresh_machine
           (uploadFile None hello "Scan (1).final.JPeG" 1700000000000
                       fresh_machine).2).
  - exists "Scan (1).final". split; vm_compute; reflexivity.
  - vm_compute. reflexivity.
Defined.

(** X15.  The content type of a name with an extension depends on the
    extension only, whatever its case: it is the type the table gives to the
    lower-cased extension, so two names whose extensions differ by case
    only get the same type. *)
Theorem getContentType_depends_on_the_extension
    (fileName1 fileName2 ext1 ext2 : string) :
  has_extension fileName1 ext1 → has_extension fileName2 ext2 →
  Str.toLowerCase ext1 = Str.toLowerCase ext2 →
  getContentType fileName1 = getContentType fileName2
  ∧ getContentType fileName1 = mime_of_extension (Str.toLowerCase ext1).
Proof.
  intros H1 H2 Hsame.
  rewrite (getContentType_extension _ _ H1), (getContentType_extension _ _ H2).
  by rewrite Hsame.
Qed.

Lemma getContentType_depends_on_the_extension_witness :
  getContentType "IMG.PNG" = getContentType "photo.v2.png"
  ∧ getContentType "IMG.PNG" = mime_of_extension (Str.toLowerCase "PNG").
Proof.
  apply (getContentType_depends_on_the_extension
           "IMG.PNG" "photo.v2.png" "PNG" "png").
  - exists "IMG". split; vm_compute; reflexivity.
  - exists "photo.v2". split; vm_compute; reflexivity.
  - vm_compute. reflexivity.
Defined.

(** *** The base path and the health check *)

Lemma walk_exists t cur segs c :
  Fs.walk t cur segs = Some c → is_Some (Fs.lookup c t) →
  is_Some (Fs.lookup cur t).
Proof.
  revert cur. induction segs as [|seg rest IH]; intros cur; simpl.
  - by intros [= ->].
  - case_decide; [by apply IH |].
    destruct (Fs.name_fits seg); [| done].
    destruct (Fs.lookup cur t) as [[d | m] |]; simpl; [done | | done].
    by intros _ _.
Qed.

(** Along a path that leads to something, [mkdir] creates nothing. *)
Lemma mkdir_walk_along t cur segs rest c :
  Fs.walk t cur segs = Some c → is_Some (Fs.lookup c t) →
  Fs.mkdir_walk t cur (segs ++ rest) = Fs.mkdir_walk t c rest.
Proof.
  revert cur. induction segs as [|seg segs' IH]; intros cur; simpl.
  - by intros [= ->].
  - case_decide; [by apply IH |].
    destruct (Fs.name_fits seg); [| done].
    destruct (Fs.is_dir (Fs.lookup cur t)); [| done].
    intros Hwalk Hc.
    destruct (walk_exists _ _ _ _ Hwalk Hc) as [x ->]. by apply IH.
Qed.

(** When the kernel can follow a path, it reaches the same place along the
    segments [path.normalize] keeps. *)
Lemma walk_normalized t start allow (segs stack : list string) cur c :
  (allow = false → start = []) →
  Forall (λ seg, Str.lacks "/" seg = true) segs →
  Path.normal allow stack →
  Fs.walk t start (reverse stack) = Some cur →
  Fs.walk t cur segs = Some c →
  Fs.walk t start (reverse (fold_left (Path.normalize_step allow) segs stack))
  = Some c.
Proof.
  intros Hroot Hsegs. revert stack cur.
  induction Hsegs as [|seg rest Hseg _ IH]; intros stack cur Hnormal Hstack;
    simpl; [congruence |].
  pose proof (PathFacts.normal_step allow stack seg Hseg Hnormal) as Hnext.
  case_decide as Hempty.
  { apply IH; [done |]. unfold Path.normalize_step.
    by rewrite decide_True. }
  destruct (Fs.name_fits seg) eqn:Hfit; [| done].
  destruct (Fs.is_dir (Fs.lookup cur t)) eqn:Hdir; [| done].
  apply IH; [done |]. revert Hnext. unfold Path.normalize_step, Fs.enter.
  rewrite decide_False by done.
  destruct (decide (seg = ".")) as [-> | Hdot]; [done |].
  destruct (decide (seg = "..")) as [-> | Hdots].
  - destruct stack as [|top below].
    + simpl in Hstack. injection Hstack as <-.
      destruct allow; intros _.
      * simpl. by rewrite Hdir.
      * by rewrite Hroot.
    + destruct (decide (top = "..")) as [-> | Htop].
      * destruct Hnormal as [[Hn _] | (_ & -> & _)]; [done |]. intros _.
        rewrite reverse_cons, FsFacts.walk_app, Hstack. simpl.
        by rewrite Hdir.
      * destruct Hnormal as [[Hn _] | (? & _)]; [| done]. intros _.
        rewrite reverse_cons, FsFacts.walk_app in Hstack.
        destruct (Fs.walk t start (reverse below)) as [c0 |]; [| done].
        change (Fs.walk t c0 [top] = Some cur) in Hstack.
        rewrite (LocateFacts.walk_name _ _ _ Hn) in Hstack.
        destruct (Fs.name_fits top && Fs.is_dir (Fs.lookup c0 t)); [| done].
        injection Hstack as <-. by rewrite removelast_last.
  - intros _. rewrite reverse_cons, FsFacts.walk_app, Hstack. simpl.
    rewrite decide_False by done. rewrite Hfit, Hdir.
    unfold Fs.enter. by rewrite !decide_False.
Qed.

(** X16.  [checkStorage] only probes the base path.  When the base path
    leads to a regular file, it returns [true] and changes nothing, although
    [initializeStorage] fails there and so does every upload. *)
Theorem checkStorage_accepts_a_file_as_base
    (env : option string) (w : Fs.state) :
  is_Some (Fs.readFile w (STORAGE_BASE_PATH env)) →
  checkStorage env w = (Returned true, w)
  ∧ initializeStorage env w = (Thrown StorageInitError, w)
  ∧ (∀ buffer fileName now,
       uploadFile env buffer fileName now w = (Thrown UploadError, w)).
Proof.
  intros [data Hread].
  pose proof (STORAGE_BASE_PATH_nonempty env) as Hbase.
  assert (Fs.mkdir_recursive w (UPLOADS_FOLDER env) = (false, w)) as Hmk.
  { destruct (LocateFacts.readFile_inv _ _ _ Hread) as (c & Hc & Hfile).
    unfold Fs.resolve in Hc.
    destruct (Fs.valid_path (STORAGE_BASE_PATH env)); [| done].
    set (abs := Str.starts_with_slash (STORAGE_BASE_PATH env)) in *.
    set (start := if abs then [] else Fs.cwd w) in *.
    assert (Fs.walk (Fs.tree w) start
                    (reverse (Path.kept (STORAGE_BASE_PATH env))) = Some c)
      as Hkept.
    { apply (walk_normalized _ start (negb abs) _ [] start);
        [| apply StrFacts.split_pieces_lack | done | done | done].
      unfold start. by destruct abs. }
    assert (Forall (λ seg, seg ≠ "" ∧ Str.lacks "/" seg = true)
              (reverse (Path.kept (STORAGE_BASE_PATH env)) ++ ["uploads"]))
      as Hall.
    { apply Forall_app. split.
      - apply Forall_reverse. eapply PathFacts.normal_pieces.
        apply PathFacts.normal_kept.
      - by repeat constructor. }
    assert (reverse (Path.kept (STORAGE_BASE_PATH env)) ++ ["uploads"] ≠ [])
      as Hne by by destruct (reverse (Path.kept (STORAGE_BASE_PATH env))).
    unfold Fs.mkdir_recursive, UPLOADS_FOLDER.
    rewrite PathFacts.join_name by done.
    destruct (Fs.valid_path (Path.render _ _)); [| done].
    rewrite PathFacts.render_starts_with_slash, PathFacts.split_render by done.
    fold abs.
    assert (Fs.mkdir_walk (Fs.tree w) start
              (reverse (Path.kept (STORAGE_BASE_PATH env)) ++ ["uploads"])
            = (false, Fs.tree w)) as Hwalk.
    { rewrite (mkdir_walk_along _ _ _ _ c Hkept) by by rewrite Hfile.
      simpl. by rewrite Hfile. }
    unfold start in Hwalk.
    destruct abs; simpl; rewrite Hwalk; by rewrite FsFacts.with_tree_same. }
  rewrite checkStorage_spec, initializeStorage_spec, Hmk.
  rewrite (FsFacts.readFile_access _ _ _ Hread).
  split; [done |]. split; [done |].
  intros buffer fileName now. by rewrite uploadFile_spec, Hmk.
Qed.

Lemma checkStorage_accepts_a_file_as_base_witness :
  checkStorage None base_is_a_file = (Returned true, base_is_a_file)
  ∧ initializeStorage None base_is_a_file
    = (Thrown StorageInitError, base_is_a_file)
  ∧ (∀ buffer fileName now,
       uploadFile None buffer fileName now base_is_a_file
       = (Thrown UploadError, base_is_a_file)).
Proof.
  apply (checkStorage_accepts_a_file_as_base None base_is_a_file).
  vm_compute. eexists. reflexivity.
Defined.

Lemma renameFile_moves_a_stored_file_witness :
  let w' := (renameFile None "uploads/1700000000000-a" "a" 1700000000001
                        one_upload).2 in
  getFilePath None "uploads/1700000000001-a" w'
  = (Returned (Path.join (STORAGE_BASE_PATH None) "uploads/1700000000001-a"),
     w')
  ∧ getFilePath None "uploads/1700000000000-a" w' = (Thrown NotFoundError, w').
Proof.
  apply (renameFile_moves_a_stored_file
           None "1700000000000-a" "a" 1700000000001 one_upload).
  - vm_compute. reflexivity.
  - vm_compute. eexists. reflexivity.
  - vm_compute. reflexivity.
  - vm_compute. discriminate.
Defined.

Lemma mkdir_recursive_of_directory w path :
  Fs.is_directory w path = true → Fs.mkdir_recursive w path = (true, w).
Proof.
  unfold Fs.is_directory, Fs.resolve, Fs.mkdir_recursive.
  destruct (Fs.valid_path path); [| done].
  destruct (Fs.walk (Fs.tree w) _ _) as [c |] eqn:Hwalk; [| done].
  intros Hdir.
  rewrite <- (app_nil_r (Str.split "/" path)).
  rewrite (mkdir_walk_along _ _ _ [] c Hwalk);
    [| by destruct (Fs.lookup c (Fs.tree w))].
  simpl. rewrite Hdir. by destruct w.
Qed.

(** X18.  [initializeStorage] returns without changing anything exactly
    when the uploads folder is already there as a directory; [checkStorage]
    then returns [true] and changes nothing either.  This is the state
    every returning [uploadFile] leaves. *)
Theorem initializeStorage_is_a_no_op_exactly_when
    (env : option string) (w : Fs.state) :
  (Fs.is_directory w (UPLOADS_FOLDER env) = true
   ↔ initializeStorage env w = (Returned (), w))
  ∧ (Fs.is_directory w (UPLOADS_FOLDER env) = true →
     checkStorage env w = (Returned true, w))
  ∧ (∀ buffer fileName now before relativePath,
       uploadFile env buffer fileName now before = (Returned relativePath, w) →
       Fs.is_directory w (UPLOADS_FOLDER env) = true).
Proof.
  rewrite checkStorage_spec, initializeStorage_spec.
  split; [split |]; [| | split].
  - intros Hdir. by rewrite mkdir_recursive_of_directory.
  - destruct (Fs.mkdir_recursive w _) as [[] w'] eqn:Hmk; [| done].
    intros [= ->]. by eapply FrameFacts.mkdir_recursive_is_directory.
  - intros Hdir. rewrite mkdir_recursive_of_directory by done.
    by destruct (Fs.access w _).
  - intros buffer fileName now before relativePath
           (_ & w1 & Hmk & Hwrite)%uploadFile_returned.
    pose proof (FrameFacts.mkdir_recursive_is_directory _ _ _ Hmk) as Hdir.
    revert Hdir. unfold Fs.is_directory.
    rewrite (FrameFacts.writeFile_resolve _ _ _ _ _ Hwrite).
    destruct (Fs.resolve w1 _) as [c |]; [| done].
    destruct (FsFacts.writeFile_inv _ _ _ _ Hwrite)
      as (c' & _ & _ & Hnd & ->).
    rewrite FsFacts.tree_with_update.
    by rewrite FsFacts.is_dir_update_file.
Qed.

Lemma initializeStorage_is_a_no_op_exactly_when_witness :
  Fs.is_directory one_upload (UPLOADS_FOLDER None) = true
  ∧ initializeStorage None one_upload = (Returned (), one_upload)
  ∧ checkStorage None one_upload = (Returned true, one_upload).
Proof.
  destruct (initializeStorage_is_a_no_op_exactly_when None one_upload)
    as ([Hinit _] & Hcheck & _).
  assert (Fs.is_directory one_upload (UPLOADS_FOLDER None) = true) as Hdir
    by (vm_compute; reflexivity).
  split; [exact Hdir |]. split; [exact (Hinit Hdir) | exact (Hcheck Hdir)].
Defined.

(** X19.  Neither [uploadFile] nor [renameFile] shortens the name it is
    given.  When the stored name, the digits of the timestamp, a dash and
    the sanitized name, has more than 255 characters, [renameFile] fails
    with [RenameError] and changes nothing, whatever the old path, and
    [uploadFile] fails with [UploadError], leaving the store as
    [initializeStorage] left it. *)
Theorem long_names_are_refused
    (env : option string) (fileName : string) (now : N) (w : Fs.state) :
  Fs.NAME_MAX < String.length (Str.of_number now) + 1 + String.length fileName →
  (∀ oldPath, renameFile env oldPath fileName now w = (Thrown RenameError, w))
  ∧ (∀ buffer,
       uploadFile env buffer fileName now w
       = (Thrown UploadError, (initializeStorage env w).2)).
Proof.
  intros Hlong.
  pose proof (STORAGE_BASE_PATH_nonempty env) as Hbase.
  pose proof (uniqueFileName_is_name now fileName) as Hname.
  split.
  - intros oldPath. rewrite renameFile_spec. cbv zeta.
    assert (Fs.resolve w (Path.join (STORAGE_BASE_PATH env)
              ("uploads/" +:+ Str.of_number now +:+ "-"
               +:+ Str.replace_not_in_class fileName)) = None) as Hnew.
    { rewrite (NameFacts.join_uploads_name _ _ Hbase Hname).
      fold (UPLOADS_FOLDER env).
      destruct (Fs.resolve w (UPLOADS_FOLDER env)) as [d |] eqn:Hd.
      - rewrite (LocateFacts.resolve_entry _ _ _ d Hd Hname).
        destruct (Fs.name_fits _) eqn:Hfit; [| by rewrite andb_false_r].
        apply FsFacts.name_fits_spec in Hfit.
        rewrite uniqueFileName_bytes in Hfit. lia.
      - apply LocateFacts.resolve_entry_None;
          [apply UPLOADS_FOLDER_nonempty | done]. }
    unfold Fs.rename. rewrite Hnew.
    by destruct (Fs.resolve w (Path.join (STORAGE_BASE_PATH env) oldPath)).
  - intros buffer.
    destruct (uploadFile env buffer fileName now w) as [[relativePath | e] w']
      eqn:Hupload.
    + apply uploadFile_returned_fits in Hupload as (Hfits & _). lia.
    + revert Hupload. rewrite uploadFile_spec, initializeStorage_spec.
      cbv zeta.
      destruct (Fs.mkdir_recursive w _) as [[] w1]; simpl.
      * destruct (Fs.writeFile w1 _ buffer); [done |]. by intros [= <- <-].
      * by intros [= <- <-].
Qed.

Lemma long_names_are_refused_witness :
  (∀ oldPath,
     renameFile None oldPath long_name 1700000000001 one_upload
     = (Thrown RenameError, one_upload))
  ∧ (∀ buffer,
       uploadFile None buffer long_name 1700000000001 one_upload
       = (Thrown UploadError, (initializeStorage None one_upload).2)).
Proof.
  apply (long_names_are_refused None long_name 1700000000001 one_upload).
  apply Nat.ltb_lt. vm_compute. reflexivity.
Defined.
